(** * CDistNet transformer core: model/modules/transformer.py

    A shallow embedding of the attention modules of [transformer.py]
    (ScaledDotProductAttention, MultiHeadAttention, PositionwiseFeedForward,
    EncoderLayer, TransformerUnit) together with the part of the torch
    tensor interface they call.

    Modelling conventions.
    - A tensor is a shape and a row-major (contiguous) buffer.  Every torch
      operator used by the source is defined by its shape check and by the
      entry it stores at each multi-index.
    - Floating-point numbers are idealised as real numbers: rounding,
      overflow and NaN are outside the model.
    - Python exceptions are an explicit error result; the random generator
      consumed by dropout is an explicit state. *)

From Stdlib Require Import List Arith Lia Bool ZArith QArith Reals Lra.
Import ListNotations.

Set Implicit Arguments.
Open Scope nat_scope.

(** ** Shapes and row-major indexing *)

Module Index.

Definition shape := list nat.

(** [numel s]: number of entries of a tensor of shape [s]. *)
Definition numel (s : shape) : nat := fold_right Nat.mul 1 s.

(** Row-major offset of a multi-index. *)
Fixpoint ravel (s : shape) (idx : list nat) : nat :=
  match s, idx with
  | _ :: s', i :: idx' => i * numel s' + ravel s' idx'
  | _, _ => 0
  end.

(** Multi-index of a row-major offset. *)
Fixpoint unravel (s : shape) (k : nat) : list nat :=
  match s with
  | [] => []
  | _ :: s' => (k / numel s') :: unravel s' (k mod numel s')
  end.

(** [in_bounds s idx]: [idx] has the rank of [s] and each coordinate is
    below its extent. *)
Fixpoint in_bounds (s : shape) (idx : list nat) : Prop :=
  match s, idx with
  | [], [] => True
  | n :: s', i :: idx' => i < n /\ in_bounds s' idx'
  | _, _ => False
  end.

Fixpoint in_boundsb (s : shape) (idx : list nat) : bool :=
  match s, idx with
  | [], [] => true
  | n :: s', i :: idx' => (i <? n) && in_boundsb s' idx'
  | _, _ => false
  end.

End Index.
Export Index.

(** ** Tensors *)

(** Python exceptions raised by the modelled code. *)
Inductive exn : Type :=
| ValueError          (* unpacking a size of the wrong rank *)
| IndexError          (* dimension out of range *)
| RuntimeError        (* shape mismatch reported by torch *)
| UnboundLocalError.  (* local variable read before assignment *)

Inductive result (A : Type) : Type :=
| Ok (a : A)
| Raise (e : exn).
Arguments Raise {A} e.

Definition rbind {A B} (r : result A) (f : A -> result B) : result B :=
  match r with
  | Ok a => f a
  | Raise e => Raise e
  end.

(** A contiguous tensor: its sizes and its row-major buffer. *)
Record Tensor (A : Type) : Type := mkTensor {
  tshape : shape;
  tdata : list A
}.

Section TensorBasics.
Variable A : Type.
Variable dflt : A.

Definition wf (t : Tensor A) : Prop := length (tdata t) = numel (tshape t).

Definition get (t : Tensor A) (idx : list nat) : A :=
  nth (ravel (tshape t) idx) (tdata t) dflt.

(** The tensor of shape [s] whose entry at [idx] is [f idx]. *)
Definition tabulate (s : shape) (f : list nat -> A) : Tensor A :=
  mkTensor s (map (fun k => f (unravel s k)) (seq 0 (numel s))).

(** [t.size()] unpacked into three names. *)
Definition size3 (t : Tensor A) : result (nat * nat * nat) :=
  match tshape t with
  | [a; b; c] => Ok (a, b, c)
  | _ => Raise ValueError
  end.
End TensorBasics.

(** ** The torch operators called by transformer.py *)

Module torch.

(** A size argument of [view]: an extent, or [-1]. *)
Inductive dim : Type :=
| D (n : nat)
| Infer.  (* the literal -1 *)

Definition is_infer (d : dim) : bool :=
  match d with Infer => true | D _ => false end.

Definition dim_extent (d : dim) : nat :=
  match d with D n => n | Infer => 1 end.

(** Size inference of [view]/[reshape] (ATen [infer_size]): [n] is the
    number of entries of the viewed tensor, [newsize] the product of the
    explicit extents. *)
Definition infer_size (sizes : list dim) (n : nat) : result shape :=
  let newsize := numel (map dim_extent sizes) in
  let ninfer := length (filter is_infer sizes) in
  if 1 <? ninfer then Raise RuntimeError
  else if ninfer =? 0 then
    if n =? newsize then Ok (map dim_extent sizes) else Raise RuntimeError
  else if (n =? newsize) || ((0 <? newsize) && (n mod newsize =? 0)) then
    if newsize =? 0 then Raise RuntimeError
    else Ok (map (fun d => match d with D k => k | Infer => n / newsize end) sizes)
  else Raise RuntimeError.

(** Swap of the entries at positions [d0] and [d1] of a list. *)
Definition swap (d0 d1 : nat) (l : list nat) : list nat :=
  map (fun i => nth (if i =? d0 then d1 else if i =? d1 then d0 else i) l 0)
      (seq 0 (length l)).

(** Position of [d] in [dims] ([length dims] when absent). *)
Fixpoint index_of (d : nat) (dims : list nat) : nat :=
  match dims with
  | [] => 0
  | x :: dims' => if x =? d then 0 else S (index_of d dims')
  end.

Fixpoint nodupb (l : list nat) : bool :=
  match l with
  | [] => true
  | x :: l' => negb (existsb (Nat.eqb x) l') && nodupb l'
  end.

Definition is_perm (dims : list nat) (rank : nat) : bool :=
  (length dims =? rank) && forallb (fun d => d <? rank) dims && nodupb dims.

(** Left-padding of a shape with extents 1 up to rank [r]. *)
Definition pad (r : nat) (s : shape) : shape := repeat 1 (r - length s) ++ s.

Fixpoint broadcast_zip (s1 s2 : shape) : option shape :=
  match s1, s2 with
  | [], [] => Some []
  | a :: s1', b :: s2' =>
      match broadcast_zip s1' s2' with
      | None => None
      | Some s =>
          if a =? b then Some (a :: s)
          else if a =? 1 then Some (b :: s)
          else if b =? 1 then Some (a :: s)
          else None
      end
  | _, _ => None
  end.

(** torch broadcasting: shapes are aligned on their last extents; two
    extents are compatible when equal or when one of them is 1. *)
Definition broadcast_shapes (s1 s2 : shape) : option shape :=
  let r := Nat.max (length s1) (length s2) in
  broadcast_zip (pad r s1) (pad r s2).

Fixpoint clamp_index (s : shape) (idx : list nat) : list nat :=
  match s, idx with
  | n :: s', i :: idx' => (if n =? 1 then 0 else i) :: clamp_index s' idx'
  | _, _ => []
  end.

(** Index read in an operand of shape [s] for the entry [idx] of the
    broadcast result. *)
Definition bcast_index (s : shape) (idx : list nat) : list nat :=
  clamp_index s (skipn (length idx - length s) idx).

Section Structural.
Variable A : Type.
Variable dflt : A.

(** [t.view(sizes)] of a contiguous tensor. *)
Definition view (sizes : list dim) (t : Tensor A) : result (Tensor A) :=
  rbind (infer_size sizes (numel (tshape t)))
        (fun s => Ok (mkTensor s (tdata t))).

(** [t.permute(dims).contiguous()]; [dims] must list every axis once
    (in [forward] the permuted tensors are always four-dimensional views). *)
Definition permute (dims : list nat) (t : Tensor A) : result (Tensor A) :=
  let s := tshape t in
  if is_perm dims (length s) then
    Ok (tabulate (map (fun d => nth d s 0) dims)
          (fun idx => get dflt t
             (map (fun d => nth (index_of d dims) idx 0) (seq 0 (length s)))))
  else Raise RuntimeError.

(** [t.transpose(d0, d1)]. *)
Definition transpose (d0 d1 : nat) (t : Tensor A) : result (Tensor A) :=
  let s := tshape t in
  if (d0 <? length s) && (d1 <? length s) then
    Ok (tabulate (swap d0 d1 s) (fun idx => get dflt t (swap d0 d1 idx)))
  else Raise IndexError.
End Structural.

Open Scope R_scope.

Definition rsum (l : list R) : R := fold_right Rplus 0 l.

(** [sum_n f n] is f 0 + ... + f (n-1). *)
Definition sum_n (f : nat -> R) (n : nat) : R := rsum (map f (seq 0 n)).

Definition rget : Tensor R -> list nat -> R := get 0.

(** [torch.bmm(a, b)]: batched matrix product. *)
Definition bmm (a b : Tensor R) : result (Tensor R) :=
  match tshape a, tshape b with
  | [ba; n; m], [bb; m'; p] =>
      if (ba =? bb)%nat && (m =? m')%nat then
        Ok (tabulate [ba; n; p]
              (fun idx =>
                 match idx with
                 | [b_; i; j] =>
                     sum_n (fun l => rget a [b_; i; l] * rget b [b_; l; j]) m
                 | _ => 0
                 end))
      else Raise RuntimeError
  | _, _ => Raise RuntimeError
  end.

(** [t / c] for a scalar [c]. *)
Definition div_scalar (t : Tensor R) (c : R) : Tensor R :=
  mkTensor (tshape t) (map (fun x => x / c) (tdata t)).

(** [t.masked_fill(mask, value)]: both operands are broadcast to their
    common shape; entries where [mask] holds are replaced by [value]. *)
Definition masked_fill (t : Tensor R) (mask : Tensor bool) (value : R)
  : result (Tensor R) :=
  match broadcast_shapes (tshape t) (tshape mask) with
  | Some s =>
      Ok (tabulate s
            (fun idx =>
               if get false mask (bcast_index (tshape mask) idx) then value
               else rget t (bcast_index (tshape t) idx)))
  | None => Raise RuntimeError
  end.

(** [a + b] with broadcasting. *)
Definition add (a b : Tensor R) : result (Tensor R) :=
  match broadcast_shapes (tshape a) (tshape b) with
  | Some s =>
      Ok (tabulate s
            (fun idx => rget a (bcast_index (tshape a) idx)
                        + rget b (bcast_index (tshape b) idx)))
  | None => Raise RuntimeError
  end.

(** [idx] with its coordinate number [d] replaced by [l]. *)
Fixpoint set_coord (d l : nat) (idx : list nat) : list nat :=
  match idx, d with
  | [], _ => []
  | _ :: idx', O => l :: idx'
  | i :: idx', S d' => i :: set_coord d' l idx'
  end.

(** [softmax(t, dim=d)]: exp(x_j) / sum_l exp(x_l) along axis [d]. *)
Definition softmax (d : nat) (t : Tensor R) : result (Tensor R) :=
  let s := tshape t in
  if (d <? length s)%nat then
    Ok (tabulate s
          (fun idx =>
             exp (rget t idx)
             / sum_n (fun l => exp (rget t (set_coord d l idx))) (nth d s O)))
  else Raise IndexError.

(** [F.relu]. *)
Definition relu (t : Tensor R) : Tensor R :=
  mkTensor (tshape t) (map (fun x => Rmax 0 x) (tdata t)).

Close Scope R_scope.

End torch.

Export torch.

(** ** Random generator and the monad of forward passes *)

(** The default torch generator, as seen by dropout: a fixed sequence of
    Bernoulli outcomes and the number of outcomes already consumed. *)
Record Generator : Type := mkGenerator {
  draws : nat -> bool;
  position : nat
}.

(** A forward pass reads and advances the generator and may raise. *)
Definition M (A : Type) : Type := Generator -> result (A * Generator).

Definition ret {A} (a : A) : M A := fun g => Ok (a, g).

Definition raise {A} (e : exn) : M A := fun _ => Raise e.

Definition bind {A B} (m : M A) (f : A -> M B) : M B :=
  fun g =>
    match m g with
    | Ok (a, g') => f a g'
    | Raise e => Raise e
    end.

(** A computation that does not touch the generator. *)
Definition lift {A} (r : result A) : M A :=
  fun g =>
    match r with
    | Ok a => Ok (a, g)
    | Raise e => Raise e
    end.

Declare Scope monad_scope.
Delimit Scope monad_scope with monad.
Notation "x <- m ;; k" := (bind m (fun x => k))
  (at level 61, m at next level, right associativity) : monad_scope.
Notation "' p <- m ;; k" := (bind m (fun x => let p := x in k))
  (at level 61, p pattern, m at next level, right associativity) : monad_scope.
Open Scope monad_scope.

(** ** torch.nn layers used by the modules *)

Module nn.

Open Scope R_scope.

(** *** nn.Dropout *)
Module Dropout.
Record t : Type := mk {
  p : Q;
  training : bool
}.

(** Constructed modules start in training mode. *)
Definition init (p : Q) : t := mk p true.

(** [F.dropout(x, p, training)] (ATen [_dropout_impl]): the input is
    returned as it is when [p == 0], in evaluation mode or when it has no
    entry; for [p == 1] the result is zero; otherwise each entry is kept
    with the next outcome of the generator and scaled by 1/(1-p). *)
Definition forward (d : t) (x : Tensor R) : M (Tensor R) :=
  fun g =>
    let n := numel (tshape x) in
    if Qeq_bool (p d) 0 || negb (training d) || (n =? 0)%nat then Ok (x, g)
    else if Qeq_bool (p d) 1 then
      Ok (mkTensor (tshape x) (map (fun v => v * 0) (tdata x)), g)
    else
      let noise := map (fun i => draws g (position g + i)) (seq 0 n) in
      Ok (mkTensor (tshape x)
            (map (fun vk : R * bool =>
                    if snd vk then fst vk * (1 / (1 - Q2R (p d)))
                    else fst vk * 0)
                 (combine (tdata x) noise)),
          mkGenerator (draws g) (position g + n)).
End Dropout.

(** The parameters of a fresh module are filled by its initialiser; the
    values it draws are given by a function of the flat offset. *)
Definition fill (s : shape) (values : nat -> R) : Tensor R :=
  mkTensor s (map values (seq 0 (numel s))).

(** *** nn.Linear *)
Module Linear.
Record t : Type := mk {
  weight : Tensor R;   (* (out_features, in_features) *)
  bias : Tensor R      (* (out_features) *)
}.

Definition init (in_features out_features : nat) (values : nat -> R) : t :=
  mk (fill [out_features; in_features] values)
     (fill [out_features] values).

(** [F.linear(x, weight, bias)]: y = x W^T + b on the last axis. *)
Definition forward (l : t) (x : Tensor R) : result (Tensor R) :=
  match tshape (weight l), rev (tshape x) with
  | [o; i], last :: front =>
      if (last =? i)%nat && (length (tshape (bias l)) =? 1)%nat
         && (nth 0 (tshape (bias l)) O =? o)%nat then
        Ok (tabulate (rev front ++ [o])
              (fun idx =>
                 let pre := removelast idx in
                 let j := List.last idx O in
                 sum_n (fun c => rget x (pre ++ [c]) * rget (weight l) [j; c]) i
                 + rget (bias l) [j]))
      else Raise RuntimeError
  | _, _ => Raise RuntimeError
  end.
End Linear.

(** *** nn.Conv1d with kernel size 1 *)
Module Conv1d.
Record t : Type := mk {
  weight : Tensor R;   (* (out_channels, in_channels, 1) *)
  bias : Tensor R      (* (out_channels) *)
}.

Definition init (in_channels out_channels : nat) (values : nat -> R) : t :=
  mk (fill [out_channels; in_channels; 1%nat] values)
     (fill [out_channels] values).

(** [F.conv1d] on a batched input (N, C_in, L): with a kernel of width 1,
    y[n, o, l] = b[o] + sum_c w[o, c, 0] * x[n, c, l].  The kernel must not
    be wider than the input, so L >= 1 is required. *)
Definition forward (m : t) (x : Tensor R) : result (Tensor R) :=
  match tshape (weight m), tshape x with
  | [o; i; k], [n; c; len] =>
      if (k =? 1)%nat && (c =? i)%nat && (1 <=? len)%nat
         && (length (tshape (bias m)) =? 1)%nat
         && (nth 0 (tshape (bias m)) O =? o)%nat then
        Ok (tabulate [n; o; len]
              (fun idx =>
                 match idx with
                 | [b_; j; l] =>
                     sum_n (fun c' => rget (weight m) [j; c'; O]
                                      * rget x [b_; c'; l]) i
                     + rget (bias m) [j]
                 | _ => 0
                 end))
      else Raise RuntimeError
  | _, _ => Raise RuntimeError
  end.
End Conv1d.

(** *** nn.LayerNorm over the last axis *)
Module LayerNorm.
Record t : Type := mk {
  normalized_shape : nat;
  eps : R;
  weight : Tensor R;
  bias : Tensor R
}.

(** [nn.LayerNorm(d, eps)]: scale 1 and shift 0. *)
Definition init (d : nat) (eps : R) : t :=
  mk d eps (fill [d] (fun _ => 1)) (fill [d] (fun _ => 0)).

Definition default_eps : R := 1 / 100000.

(** y = (x - E[x]) / sqrt(Var[x] + eps) * weight + bias, mean and
    (biased) variance taken over the last axis. *)
Definition forward (m : t) (x : Tensor R) : result (Tensor R) :=
  match rev (tshape x) with
  | last :: _ =>
      if (last =? normalized_shape m)%nat then
        Ok (tabulate (tshape x)
              (fun idx =>
                 let pre := removelast idx in
                 let j := List.last idx O in
                 let n := INR last in
                 let mean := sum_n (fun c => rget x (pre ++ [c])) last / n in
                 let var :=
                   sum_n (fun c => (rget x (pre ++ [c]) - mean)
                                   * (rget x (pre ++ [c]) - mean)) last / n in
                 (rget x idx - mean) / sqrt (var + eps m)
                 * rget (weight m) [j] + rget (bias m) [j]))
      else Raise RuntimeError
  | [] => Raise RuntimeError
  end.
End LayerNorm.

Close Scope R_scope.

End nn.

Export nn.

(** ** transformer.py *)

(** [mask=None] or a boolean tensor. *)
Definition Mask : Type := option (Tensor bool).

(** *** class ScaledDotProductAttention *)
Module ScaledDotProductAttention.
Record t : Type := mk {
  temperature : R;
  dropout : Dropout.t
  (* self.softmax = nn.Softmax(dim=2) has no state *)
}.

(** [np.power(d_k, 0.5)] is the square root of [d_k]. *)
Definition init (d_k : nat) (attn_dropout : Q) : t :=
  mk (sqrt (INR d_k)) (Dropout.init attn_dropout).

(** Fill value of [masked_fill]: -1e9. *)
Definition neg_1e9 : R := (- 1000000000)%R.

(** Lines 39-42 of [forward]: the scaled and masked scores. *)
Definition scores (self : t) (q k : Tensor R) (mask : Mask)
  : result (Tensor R) :=
  rbind (transpose 0%R 1 2 k) (fun kt =>
  rbind (bmm q kt) (fun attn =>
  let attn := div_scalar attn (temperature self) in
  match mask with
  | Some m => masked_fill attn m neg_1e9
  | None => Ok attn
  end)).

(** Lines 39-43 of [forward]: the attention weights before dropout. *)
Definition weights (self : t) (q k : Tensor R) (mask : Mask)
  : result (Tensor R) :=
  rbind (scores self q k mask) (softmax 2).

Definition forward (self : t) (q k v : Tensor R) (mask : Mask)
  : M (Tensor R * Tensor R) :=
  attn <- lift (weights self q k mask) ;;
  attn <- Dropout.forward (dropout self) attn ;;
  output <- lift (bmm attn v) ;;
  ret (output, attn).
End ScaledDotProductAttention.

(** *** class MultiHeadAttention *)
Module MultiHeadAttention.
Record t : Type := mk {
  n_head : nat;
  d_k : nat;
  d_v : nat;
  w_qs : Linear.t;
  w_ks : Linear.t;
  w_vs : Linear.t;
  attention : ScaledDotProductAttention.t;
  layer_norm : LayerNorm.t;
  fc : Linear.t;
  dropout : Dropout.t
}.

(** [values] stands for the numbers drawn by [normal_] and
    [xavier_normal_]; the inner attention keeps its default dropout 0.1. *)
Definition init (n_head d_model d_k d_v : nat) (dropout : Q)
    (values : nat -> R) : t :=
  mk n_head d_k d_v
     (Linear.init d_model (n_head * d_k) values)
     (Linear.init d_model (n_head * d_k) values)
     (Linear.init d_model (n_head * d_v) values)
     (ScaledDotProductAttention.init d_k (1 # 10))
     (LayerNorm.init d_model LayerNorm.default_eps)
     (Linear.init (n_head * d_v) d_model values)
     (Dropout.init dropout).

(** Lines 74 and 77 (and their copies for k and v), after the projection:
    split of the feature axis into heads, heads moved in front of the
    batch. *)
Definition split_heads (A : Type) (dflt : A) (sz_b len n_head d : nat)
    (x : Tensor A) : result (Tensor A) :=
  rbind (view [D sz_b; D len; D n_head; D d] x) (fun x =>
  rbind (permute dflt [2; 0; 1; 3] x) (fun x =>
  view [Infer; D len; D d] x)).

(** Lines 81-82: heads moved back next to the features and flattened. *)
Definition merge_heads (A : Type) (dflt : A) (n_head sz_b len_q d_v : nat)
    (output : Tensor A) : result (Tensor A) :=
  rbind (view [D n_head; D sz_b; D len_q; D d_v] output) (fun output =>
  rbind (permute dflt [1; 2; 0; 3] output) (fun output =>
  view [D sz_b; D len_q; Infer] output)).

Definition forward (self : t) (q k v : Tensor R) (mask : Mask)
  : M (Tensor R * Tensor R) :=
  let d_k := d_k self in
  let d_v := d_v self in
  let n_head := n_head self in
  '(sz_b, len_q, _) <- lift (size3 q) ;;
  '(sz_b, len_k, _) <- lift (size3 k) ;;
  '(sz_b, len_v, _) <- lift (size3 v) ;;
  let residual := q in
  q <- lift (rbind (Linear.forward (w_qs self) q)
                   (view [D sz_b; D len_q; D n_head; D d_k])) ;;
  k <- lift (rbind (Linear.forward (w_ks self) k)
                   (view [D sz_b; D len_k; D n_head; D d_k])) ;;
  v <- lift (rbind (Linear.forward (w_vs self) v)
                   (view [D sz_b; D len_v; D n_head; D d_v])) ;;
  q <- lift (rbind (permute 0%R [2; 0; 1; 3] q) (view [Infer; D len_q; D d_k])) ;;
  k <- lift (rbind (permute 0%R [2; 0; 1; 3] k) (view [Infer; D len_k; D d_k])) ;;
  v <- lift (rbind (permute 0%R [2; 0; 1; 3] v) (view [Infer; D len_v; D d_v])) ;;
  '(output, attn) <- ScaledDotProductAttention.forward (attention self) q k v mask ;;
  output <- lift (merge_heads 0%R n_head sz_b len_q d_v output) ;;
  output <- lift (Linear.forward (fc self) output) ;;
  output <- Dropout.forward (dropout self) output ;;
  output <- lift (rbind (add output residual) (LayerNorm.forward (layer_norm self))) ;;
  ret (output, attn).
End MultiHeadAttention.

(** *** class PositionwiseFeedForward *)
Module PositionwiseFeedForward.
Record t : Type := mk {
  w_1 : Conv1d.t;
  w_2 : Conv1d.t;
  layer_norm : LayerNorm.t;
  dropout : Dropout.t
}.

Definition init (d_in d_hid : nat) (dropout : Q) (values : nat -> R) : t :=
  mk (Conv1d.init d_in d_hid values)
     (Conv1d.init d_hid d_in values)
     (LayerNorm.init d_in LayerNorm.default_eps)
     (Dropout.init dropout).

Definition forward (self : t) (x : Tensor R) : M (Tensor R) :=
  let residual := x in
  x <- lift (transpose 0%R 1 2 x) ;;
  x <- lift (rbind (Conv1d.forward (w_1 self) x) (fun h =>
             Conv1d.forward (w_2 self) (relu h))) ;;
  x <- lift (transpose 0%R 1 2 x) ;;
  x <- Dropout.forward (dropout self) x ;;
  x <- lift (rbind (add x residual) (LayerNorm.forward (layer_norm self))) ;;
  ret x.
End PositionwiseFeedForward.

(** *** class EncoderLayer *)
Module EncoderLayer.
Record t : Type := mk {
  slf_attn : MultiHeadAttention.t;
  pos_ffn : PositionwiseFeedForward.t
}.

Definition init (d_model d_inner n_head d_k d_v : nat) (dropout : Q)
    (values : nat -> R) : t :=
  mk (MultiHeadAttention.init n_head d_model d_k d_v dropout values)
     (PositionwiseFeedForward.init d_model d_inner dropout values).

Definition forward (self : t) (query key value : Tensor R)
    (slf_attn_mask : Mask) : M (Tensor R * Tensor R) :=
  '(enc_output, enc_slf_attn) <-
     MultiHeadAttention.forward (slf_attn self) query key value slf_attn_mask ;;
  enc_output <- PositionwiseFeedForward.forward (pos_ffn self) enc_output ;;
  ret (enc_output, enc_slf_attn).
End EncoderLayer.

(** *** class TransformerUnit *)
Module TransformerUnit.
Record t : Type := mk {
  dropout : Dropout.t;
  layer_stack : list EncoderLayer.t;
  layer_norm : LayerNorm.t
}.

(** [range(n_layers)] is empty for [n_layers <= 0]; layer number [i] draws
    its initial values from [values i]. *)
Definition init (n_layers : Z) (n_head d_k d_v d_model d_inner : nat)
    (dropout : Q) (values : nat -> nat -> R) : t :=
  mk (Dropout.init dropout)
     (map (fun i => EncoderLayer.init d_model d_inner n_head d_k d_v dropout
                      (values i))
          (seq 0 (Z.to_nat n_layers)))
     (LayerNorm.init d_model (1 / 1000000)%R).

(** What a call can hand back: a tensor, or a tensor with attention
    weights. *)
Inductive returned : Type :=
| Output (enc_output : Tensor R)
| OutputWithAttns (enc_output : Tensor R) (attns : Tensor R).

(** The local names [enc_output, enc_slf_attn] are unbound before the
    first iteration of the loop. *)
Definition locals : Type := option (Tensor R * Tensor R).

(** The [for enc_layer in self.layer_stack] loop. *)
Fixpoint for_layers (stack : list EncoderLayer.t)
    (query key value : Tensor R) (src_mask : Mask) (vars : locals)
  : M locals :=
  match stack with
  | [] => ret vars
  | enc_layer :: rest =>
      r <- EncoderLayer.forward enc_layer query key value src_mask ;;
      for_layers rest query key value src_mask (Some r)
  end.

Definition forward (self : t) (query key value : Tensor R)
    (src_mask : Mask) (return_attns : bool) : M returned :=
  vars <- for_layers (layer_stack self) query key value src_mask None ;;
  match vars with
  | None => raise UnboundLocalError
  | Some (enc_output, enc_slf_attn) =>
      enc_output <- lift (LayerNorm.forward (layer_norm self) enc_output) ;;
      ret (Output enc_output)
  end.
End TransformerUnit.

(** * Predicates used in the statements *)

(** [quiet r]: [r] does not raise UnboundLocalError. *)
Definition quiet {A} (r : result A) : Prop := r <> Raise UnboundLocalError.

Definition quietM {A} (m : M A) : Prop := forall g, quiet (m g).


(** Dropout is disabled when its probability is 0 or the module is in
    evaluation mode. *)
Definition dropout_disabled (d : Dropout.t) : Prop :=
  Qeq_bool (Dropout.p d) 0 || negb (Dropout.training d) = true.

Definition SDPA_no_dropout (m : ScaledDotProductAttention.t) : Prop :=
  dropout_disabled (ScaledDotProductAttention.dropout m).

Definition MHA_no_dropout (m : MultiHeadAttention.t) : Prop :=
  dropout_disabled (MultiHeadAttention.dropout m)
  /\ SDPA_no_dropout (MultiHeadAttention.attention m).

Definition PFF_no_dropout (m : PositionwiseFeedForward.t) : Prop :=
  dropout_disabled (PositionwiseFeedForward.dropout m).

Definition EncoderLayer_no_dropout (l : EncoderLayer.t) : Prop :=
  MHA_no_dropout (EncoderLayer.slf_attn l)
  /\ PFF_no_dropout (EncoderLayer.pos_ffn l).

Definition Unit_no_dropout (u : TransformerUnit.t) : Prop :=
  Forall EncoderLayer_no_dropout (TransformerUnit.layer_stack u).

(** [repeatable m]: whatever the state of the generator, [m] gives the same
    value or raises the same exception, and leaves the generator as it
    found it. *)
Definition repeatable {A} (m : M A) : Prop :=
  forall g1 g2,
    match m g1, m g2 with
    | Ok (a1, g1'), Ok (a2, g2') => a1 = a2 /\ g1' = g1 /\ g2' = g2
    | Raise e1, Raise e2 => e1 = e2
    | _, _ => False
    end.

(** *** Architecture of constructed modules

    The shapes fixed by the constructors; training changes the entries of
    the parameters, not their shapes. *)

Definition Linear_arch (i o : nat) (l : Linear.t) : Prop :=
  tshape (Linear.weight l) = [o; i] /\ tshape (Linear.bias l) = [o].

Definition Conv1d_arch (i o : nat) (c : Conv1d.t) : Prop :=
  tshape (Conv1d.weight c) = [o; i; 1] /\ tshape (Conv1d.bias c) = [o].

Definition LayerNorm_arch (d : nat) (m : LayerNorm.t) : Prop :=
  LayerNorm.normalized_shape m = d.

Definition MHA_arch (n_head d_model d_k d_v : nat) (m : MultiHeadAttention.t)
  : Prop :=
  MultiHeadAttention.n_head m = n_head
  /\ MultiHeadAttention.d_k m = d_k
  /\ MultiHeadAttention.d_v m = d_v
  /\ Linear_arch d_model (n_head * d_k) (MultiHeadAttention.w_qs m)
  /\ Linear_arch d_model (n_head * d_k) (MultiHeadAttention.w_ks m)
  /\ Linear_arch d_model (n_head * d_v) (MultiHeadAttention.w_vs m)
  /\ LayerNorm_arch d_model (MultiHeadAttention.layer_norm m)
  /\ Linear_arch (n_head * d_v) d_model (MultiHeadAttention.fc m).

Definition PFF_arch (d_in d_hid : nat) (m : PositionwiseFeedForward.t) : Prop :=
  Conv1d_arch d_in d_hid (PositionwiseFeedForward.w_1 m)
  /\ Conv1d_arch d_hid d_in (PositionwiseFeedForward.w_2 m)
  /\ LayerNorm_arch d_in (PositionwiseFeedForward.layer_norm m).

Definition EncoderLayer_arch (d_model d_inner n_head d_k d_v : nat)
    (l : EncoderLayer.t) : Prop :=
  MHA_arch n_head d_model d_k d_v (EncoderLayer.slf_attn l)
  /\ PFF_arch d_model d_inner (EncoderLayer.pos_ffn l).

(** A unit as [TransformerUnit(n_layers, n_head, d_k, d_v, d_model,
    d_inner)] builds it: [n_layers] layers of one architecture. *)
Definition Unit_arch (n_layers : Z) (n_head d_k d_v d_model d_inner : nat)
    (u : TransformerUnit.t) : Prop :=
  length (TransformerUnit.layer_stack u) = Z.to_nat n_layers
  /\ Forall (EncoderLayer_arch d_model d_inner n_head d_k d_v)
            (TransformerUnit.layer_stack u)
  /\ LayerNorm_arch d_model (TransformerUnit.layer_norm u).

(** *** Results that agree on shapes and exceptions *)

Definition same_shape {A B} (t1 : Tensor A) (t2 : Tensor B) : Prop :=
  tshape t1 = tshape t2.

Inductive sim {A B} (R : A -> B -> Prop) : result A -> result B -> Prop :=
| sim_Ok a b : R a b -> sim R (Ok a) (Ok b)
| sim_Raise e : sim R (Raise e) (Raise e).

Definition simM {A B} (R : A -> B -> Prop) (m1 : M A) (m2 : M B) : Prop :=
  forall g1 g2, sim (fun x y => R (fst x) (fst y)) (m1 g1) (m2 g2).

Definition same_shapes {A B} (x : Tensor A * Tensor A) (y : Tensor B * Tensor B)
  : Prop :=
  same_shape (fst x) (fst y) /\ same_shape (snd x) (snd y).

(** *** Attention as the specification words it

    softmax(Q K^T / sqrt(Dk)) V, entry by entry, for Q of shape
    (B, Lq, Dk), K of shape (B, Lk, Dk) and V of shape (B, Lk, Dv). *)
Section AttentionSpec.
Variables (Dk Lk : nat) (Q K V : Tensor R).




End AttentionSpec.

(** A mask that [masked_fill] can apply to scores of shape [s] without
    enlarging them. *)
Definition mask_fits (s : shape) (mask : Mask) : Prop :=
  match mask with
  | None => True
  | Some m => broadcast_shapes s (tshape m) = Some s
  end.

(** Whether the mask suppresses position [idx] of scores of its own shape. *)
Definition suppressed (mask : Mask) (idx : list nat) : bool :=
  match mask with
  | None => false
  | Some m => get false m idx
  end.


(** *** Example inputs *)

(** One query and one key of width 1, the only position suppressed. *)
Definition q_one : Tensor R := mkTensor [1; 1; 1] [0%R].
Definition mask_one : Tensor bool := mkTensor [1; 1; 1] [true].
Definition sdpa_one : ScaledDotProductAttention.t :=
  ScaledDotProductAttention.init 1 0.

(** [mask.repeat(n_head, 1, 1)]: the mask of each batch entry, once per
    head (what would expand a (B, Lq, Lk) mask to (n_head*B, Lq, Lk)). *)
Definition repeat_heads (n_head : nat) (mask : Tensor bool) : Tensor bool :=
  match tshape mask with
  | [B; Lq; Lk] =>
      tabulate [n_head * B; Lq; Lk]
        (fun idx => match idx with
                    | [a; i; j] => get false mask [a mod B; i; j]
                    | _ => false
                    end)
  | _ => mask
  end.


(** Two heads of width 1 on a model of width 1, dropout 0, weights 0. *)
Definition mha_two_heads : MultiHeadAttention.t :=
  MultiHeadAttention.init 2 1 1 1 0 (fun _ => 0%R).

(** A batch of two sequences of length 1 and a (B, Lq, Lk) mask for it. *)
Definition q_batch2 : Tensor R := mkTensor [2; 1; 1] [0%R; 0%R].
Definition mask_batch2 : Tensor bool := mkTensor [2; 1; 1] [false; false].

Definition gen0 : Generator := mkGenerator (fun _ => true) 0.

(** [nn.Module.eval()]: evaluation mode for a module and its children. *)
Definition Dropout_eval (d : Dropout.t) : Dropout.t :=
  Dropout.mk (Dropout.p d) false.

Definition SDPA_eval (m : ScaledDotProductAttention.t) : ScaledDotProductAttention.t :=
  ScaledDotProductAttention.mk (ScaledDotProductAttention.temperature m)
    (Dropout_eval (ScaledDotProductAttention.dropout m)).

Definition MHA_eval (m : MultiHeadAttention.t) : MultiHeadAttention.t :=
  MultiHeadAttention.mk
    (MultiHeadAttention.n_head m) (MultiHeadAttention.d_k m)
    (MultiHeadAttention.d_v m) (MultiHeadAttention.w_qs m)
    (MultiHeadAttention.w_ks m) (MultiHeadAttention.w_vs m)
    (SDPA_eval (MultiHeadAttention.attention m))
    (MultiHeadAttention.layer_norm m) (MultiHeadAttention.fc m)
    (Dropout_eval (MultiHeadAttention.dropout m)).

Definition PFF_eval (m : PositionwiseFeedForward.t) : PositionwiseFeedForward.t :=
  PositionwiseFeedForward.mk
    (PositionwiseFeedForward.w_1 m) (PositionwiseFeedForward.w_2 m)
    (PositionwiseFeedForward.layer_norm m)
    (Dropout_eval (PositionwiseFeedForward.dropout m)).

Definition EncoderLayer_eval (l : EncoderLayer.t) : EncoderLayer.t :=
  EncoderLayer.mk (MHA_eval (EncoderLayer.slf_attn l))
                  (PFF_eval (EncoderLayer.pos_ffn l)).

Definition Unit_eval (u : TransformerUnit.t) : TransformerUnit.t :=
  TransformerUnit.mk (Dropout_eval (TransformerUnit.dropout u))
    (map EncoderLayer_eval (TransformerUnit.layer_stack u))
    (TransformerUnit.layer_norm u).

(** A unit of two layers with two heads, all widths 1, in training mode. *)
Definition unit_two_layers : TransformerUnit.t :=
  TransformerUnit.init 2 2 1 1 1 1 (1 # 10) (fun _ _ => 0%R).

(** The same unit after [eval()]. *)
Definition unit_eval : TransformerUnit.t := Unit_eval unit_two_layers.



(** * Row-level reading of the position-wise layers *)







(** A mask that suppresses no position. *)
Definition all_false (m : Tensor bool) : Prop :=
  forall idx, in_bounds (tshape m) idx -> get false m idx = false.

(** Two key tensors that differ only at key positions suppressed for every
    query of their batch entry (padding positions). *)
Definition differ_only_where_masked (B Lq Lk Dk : nat) (m : Tensor bool)
    (k k' : Tensor R) : Prop :=
  forall b j, b < B -> j < Lk ->
    (forall i, i < Lq -> get false m [b; i; j] = true)
    \/ (forall c, c < Dk -> rget k [b; j; c] = rget k' [b; j; c]).

(** A one-position key that differs from [q_one]. *)
Definition k_other : Tensor R := mkTensor [1; 1; 1] [5%R].

(** The unit [u] with its layer stack replaced. *)
Definition with_layers (u : TransformerUnit.t) (stack : list EncoderLayer.t)
  : TransformerUnit.t :=
  TransformerUnit.mk (TransformerUnit.dropout u) stack (TransformerUnit.layer_norm u).

(** Two masks of one shape (or both absent). *)
Definition same_mask_shape (m1 m2 : Mask) : Prop :=
  match m1, m2 with
  | None, None => True
  | Some a, Some b => tshape a = tshape b
  | _, _ => False
  end.

(** Two values handed back by [TransformerUnit.forward] with outputs of one
    shape. *)
Definition same_returned_shape (r1 r2 : TransformerUnit.returned) : Prop :=
  match r1, r2 with
  | TransformerUnit.Output o1, TransformerUnit.Output o2 => same_shape o1 o2
  | TransformerUnit.OutputWithAttns o1 a1, TransformerUnit.OutputWithAttns o2 a2 =>
      same_shape o1 o2 /\ same_shape a1 a2
  | _, _ => False
  end.

Definition same_locals (v1 v2 : TransformerUnit.locals) : Prop :=
  match v1, v2 with
  | None, None => True
  | Some x, Some y => same_shapes x y
  | _, _ => False
  end.

(** The mask fits scores (B, Lq, Lk) exactly: absent or of that shape. *)
Definition mask_of_shape (s : shape) (mask : Mask) : Prop :=
  match mask with
  | None => True
  | Some m => tshape m = s
  end.

(** A parameter tensor all of whose entries are 0. *)
Definition zero_tensor (t : Tensor R) : Prop := forall idx, rget t idx = 0%R.


(** Two heads of width 1 whose parameters are all 0, dropout 0.5. *)
Definition mha_zero : MultiHeadAttention.t :=
  MultiHeadAttention.init 2 1 1 1 (1 # 2) (fun _ => 0%R).
(** * Properties *)

Unset Implicit Arguments.

(** ** Row-major indexing *)

Lemma in_boundsb_spec s : forall idx, in_boundsb s idx = true <-> in_bounds s idx.
Proof.
  induction s as [|n s IH]; intros [|i idx]; simpl; try (split; [discriminate|tauto]).
  - tauto.
  - rewrite andb_true_iff, Nat.ltb_lt, IH. tauto.
Qed.

Lemma in_bounds_length s : forall idx, in_bounds s idx -> length idx = length s.
Proof.
  induction s as [|n s IH]; intros [|i idx]; simpl; try tauto.
  intros [_ H]. f_equal. auto.
Qed.

Lemma ravel_lt s : forall idx, in_bounds s idx -> ravel s idx < numel s.
Proof.
  induction s as [|n s IH]; intros [|i idx]; simpl; try tauto.
  - lia.
  - intros [Hi Hb]. specialize (IH _ Hb). nia.
Qed.

Lemma unravel_ravel s : forall idx, in_bounds s idx -> unravel s (ravel s idx) = idx.
Proof.
  induction s as [|n s IH]; intros [|i idx]; simpl; try tauto.
  intros [Hi Hb]. pose proof (ravel_lt _ _ Hb) as Hlt.
  assert (Hq : (i * numel s + ravel s idx) / numel s = i).
  { rewrite Nat.add_comm, Nat.div_add by lia.
    rewrite Nat.div_small by lia. reflexivity. }
  assert (Hr : (i * numel s + ravel s idx) mod numel s = ravel s idx).
  { rewrite Nat.add_comm, Nat.Div0.mod_add.
    apply Nat.mod_small; lia. }
  rewrite Hq, Hr, IH by assumption. reflexivity.
Qed.

Lemma unravel_in_bounds s : forall k, k < numel s -> in_bounds s (unravel s k).
Proof.
  induction s as [|n s IH]; intros k Hk; simpl in *.
  - exact I.
  - assert (Hs : numel s <> 0) by (intro E; rewrite E in Hk; lia).
    split.
    + apply Nat.Div0.div_lt_upper_bound. lia.
    + apply IH. apply Nat.mod_upper_bound. assumption.
Qed.

Lemma ravel_unravel s : forall k, k < numel s -> ravel s (unravel s k) = k.
Proof.
  induction s as [|n s IH]; intros k Hk; simpl in *.
  - lia.
  - assert (Hs : numel s <> 0) by (intro E; rewrite E in Hk; lia).
    rewrite IH by (apply Nat.mod_upper_bound; assumption).
    pose proof (Nat.div_mod_eq k (numel s)). lia.
Qed.

Lemma unravel_length s : forall k, length (unravel s k) = length s.
Proof. induction s as [|n s IH]; intros k; simpl; auto. Qed.

(** ** Entries of tabulated tensors *)

Section TensorFacts.
Variable A : Type.
Variable dflt : A.

Lemma tabulate_wf s (f : list nat -> A) : wf (tabulate s f).
Proof. unfold wf, tabulate; simpl. rewrite length_map, length_seq. reflexivity. Qed.

Lemma get_tabulate s (f : list nat -> A) idx :
  in_bounds s idx -> get dflt (tabulate s f) idx = f idx.
Proof.
  intros Hb. unfold get, tabulate; simpl.
  pose proof (ravel_lt _ _ Hb) as Hlt.
  rewrite nth_indep with (d' := f (unravel s 0))
    by (rewrite length_map, length_seq; assumption).
  rewrite (map_nth (fun k => f (unravel s k)) (seq 0 (numel s)) 0).
  rewrite seq_nth by assumption. simpl.
  rewrite unravel_ravel by assumption. reflexivity.
Qed.

(** Two well-formed tensors of one shape with the same entries are equal. *)
Lemma tensor_ext (t1 t2 : Tensor A) :
  wf t1 -> wf t2 -> tshape t1 = tshape t2 ->
  (forall idx, in_bounds (tshape t1) idx -> get dflt t1 idx = get dflt t2 idx) ->
  t1 = t2.
Proof.
  destruct t1 as [s1 d1], t2 as [s2 d2]; unfold wf, get; simpl.
  intros H1 H2 Hs Hget. subst s2. f_equal.
  apply nth_ext with (d := dflt) (d' := dflt); [congruence|].
  intros k Hk. rewrite H1 in Hk.
  specialize (Hget _ (unravel_in_bounds _ _ Hk)).
  rewrite ravel_unravel in Hget by assumption. exact Hget.
Qed.

Lemma tabulate_ext s (f g : list nat -> A) :
  (forall idx, in_bounds s idx -> f idx = g idx) ->
  tabulate s f = tabulate s g.
Proof.
  intros H. unfold tabulate. f_equal. apply map_ext_in.
  intros k Hk. apply in_seq in Hk. apply H, unravel_in_bounds. lia.
Qed.

Lemma tabulate_get (t : Tensor A) :
  wf t -> tabulate (tshape t) (get dflt t) = t.
Proof.
  intros Hwf. apply tensor_ext; auto using tabulate_wf.
  intros idx Hb. simpl in Hb. rewrite get_tabulate by assumption. reflexivity.
Qed.
End TensorFacts.

(** ** The monad of forward passes *)

Lemma bind_lift {A B} (r : result A) (f : A -> M B) g :
  bind (lift r) f g = match r with Ok a => f a g | Raise e => Raise e end.
Proof. unfold bind, lift. destruct r; reflexivity. Qed.

Lemma lift_rbind {A B} (r : result A) (f : A -> result B) g :
  bind (lift r) (fun a => lift (f a)) g = lift (rbind r f) g.
Proof. unfold bind, lift, rbind. destruct r; reflexivity. Qed.

(** ** Which exceptions the modules raise *)

Lemma quiet_rbind {A B} (r : result A) (f : A -> result B) :
  quiet r -> (forall a, quiet (f a)) -> quiet (rbind r f).
Proof.
  unfold quiet, rbind. destruct r; intros H1 H2; [apply H2 |].
  intros E; apply H1; congruence.
Qed.

Lemma quietM_bind {A B} (m : M A) (f : A -> M B) :
  quietM m -> (forall a, quietM (f a)) -> quietM (bind m f).
Proof.
  unfold quietM, quiet, bind. intros H1 H2 g.
  specialize (H1 g). destruct (m g) as [[a g']|e]; [apply H2 |].
  intros E; apply H1; congruence.
Qed.

Lemma quietM_lift {A} (r : result A) : quiet r -> quietM (lift r).
Proof. unfold quietM, quiet, lift. intros H g. destruct r; congruence. Qed.

Lemma quietM_ret {A} (a : A) : quietM (ret a).
Proof. intros g. unfold quiet, ret. discriminate. Qed.

Ltac break_match :=
  repeat match goal with
         | |- context [match ?x with _ => _ end] =>
             lazymatch x with
             | context [match _ with _ => _ end] => fail
             | _ => destruct x; cbn beta iota
             end
         end.

Ltac quiet_op := unfold quiet; break_match; discriminate.

Lemma quiet_size3 {A} (t : Tensor A) : quiet (size3 t).
Proof. unfold size3. quiet_op. Qed.

Lemma quiet_view {A} sizes (t : Tensor A) : quiet (view sizes t).
Proof. unfold view, infer_size, rbind. quiet_op. Qed.

Lemma quiet_permute {A} (d : A) dims t : quiet (permute d dims t).
Proof. unfold permute. quiet_op. Qed.

Lemma quiet_transpose {A} (d : A) d0 d1 t : quiet (transpose d d0 d1 t).
Proof. unfold transpose. quiet_op. Qed.

Lemma quiet_bmm a b : quiet (bmm a b).
Proof. unfold bmm. quiet_op. Qed.

Lemma quiet_masked_fill t m v : quiet (masked_fill t m v).
Proof. unfold masked_fill. quiet_op. Qed.

Lemma quiet_add a b : quiet (add a b).
Proof. unfold add. quiet_op. Qed.

Lemma quiet_softmax d t : quiet (softmax d t).
Proof. unfold softmax. quiet_op. Qed.

Lemma quiet_Linear l x : quiet (Linear.forward l x).
Proof. unfold Linear.forward. quiet_op. Qed.

Lemma quiet_Conv1d l x : quiet (Conv1d.forward l x).
Proof. unfold Conv1d.forward. quiet_op. Qed.

Lemma quiet_LayerNorm l x : quiet (LayerNorm.forward l x).
Proof. unfold LayerNorm.forward. quiet_op. Qed.

Lemma quietM_Dropout d x : quietM (Dropout.forward d x).
Proof. intros g. unfold Dropout.forward. quiet_op. Qed.

Create HintDb quiet.
#[local] Hint Resolve quiet_size3 quiet_view quiet_permute quiet_transpose
  quiet_bmm quiet_masked_fill quiet_add quiet_softmax quiet_Linear
  quiet_Conv1d quiet_LayerNorm quietM_Dropout quietM_ret : quiet.

Ltac quiet_steps :=
  repeat first
    [ solve [ auto with quiet ]
    | apply quietM_lift
    | apply quietM_bind; [| intros ]
    | apply quiet_rbind; [| intros ]
    | match goal with
      | |- quietM (let '(_, _) := ?x in _) => destruct x
      | |- quiet (match ?x with _ => _ end) => destruct x
      | |- quiet (let _ := _ in _) => cbv zeta
      end
    | unfold quiet; discriminate ].

Lemma quietM_SDPA self q k v mask :
  quietM (ScaledDotProductAttention.forward self q k v mask).
Proof.
  unfold ScaledDotProductAttention.forward, ScaledDotProductAttention.weights,
    ScaledDotProductAttention.scores.
  quiet_steps.
Qed.

#[local] Hint Resolve quietM_SDPA : quiet.

Lemma quietM_MHA self q k v mask :
  quietM (MultiHeadAttention.forward self q k v mask).
Proof.
  unfold MultiHeadAttention.forward, MultiHeadAttention.merge_heads.
  quiet_steps.
Qed.

Lemma quietM_PFF self x : quietM (PositionwiseFeedForward.forward self x).
Proof. unfold PositionwiseFeedForward.forward. quiet_steps. Qed.

Lemma quietM_EncoderLayer self q k v mask :
  quietM (EncoderLayer.forward self q k v mask).
Proof.
  unfold EncoderLayer.forward.
  apply quietM_bind; [apply quietM_MHA|]. intros [o a].
  apply quietM_bind; [apply quietM_PFF|]. intros o'. apply quietM_ret.
Qed.

(** ** TransformerUnit: the loop and its result *)

Lemma init_layer_stack_length n_layers n_head d_k d_v d_model d_inner p values :
  length (TransformerUnit.layer_stack
            (TransformerUnit.init n_layers n_head d_k d_v d_model d_inner p values))
  = Z.to_nat n_layers.
Proof. simpl. rewrite length_map, length_seq. reflexivity. Qed.

Lemma for_layers_quiet stack q k v mask vars :
  quietM (TransformerUnit.for_layers stack q k v mask vars).
Proof.
  revert vars. induction stack as [|l rest IH]; intros vars; simpl.
  - apply quietM_ret.
  - apply quietM_bind; [apply quietM_EncoderLayer | intros r; apply IH].
Qed.

(** After at least one iteration the local names are bound. *)
Lemma for_layers_bound stack q k v mask r g vars g' :
  TransformerUnit.for_layers stack q k v mask (Some r) g = Ok (vars, g') ->
  vars <> None.
Proof.
  revert r g. induction stack as [|l rest IH]; intros r g; simpl.
  - unfold ret. intros E; inversion E; discriminate.
  - unfold bind. destruct (EncoderLayer.forward l q k v mask g) as [[r' g1]|e];
      [apply IH | discriminate].
Qed.

(** C10: [forward] raises UnboundLocalError exactly when the layer stack is
    empty, for every input and generator state; a unit built by the
    constructor has an empty stack exactly when [n_layers < 1]. So under
    [n_layers >= 1] the unbound-name failure cannot happen, and with no
    layer the call fails instead of returning a normalised input. *)
Theorem forward_unbound_iff_no_layer :
  (forall u query key value src_mask return_attns g,
      TransformerUnit.forward u query key value src_mask return_attns g
      = Raise UnboundLocalError
      <-> TransformerUnit.layer_stack u = [])
  /\ (forall n_layers n_head d_k d_v d_model d_inner p values,
         TransformerUnit.layer_stack
           (TransformerUnit.init n_layers n_head d_k d_v d_model d_inner p values)
         = []
         <-> (n_layers < 1)%Z).
Proof.
  split.
  - intros u q k v mask ra g. unfold TransformerUnit.forward.
    destruct (TransformerUnit.layer_stack u) as [|l rest] eqn:Hs.
    + simpl. split; reflexivity || auto.
    + split; [|discriminate].
      simpl. unfold bind at 1. unfold bind at 1.
      pose proof (quietM_EncoderLayer l q k v mask g) as Hq.
      destruct (EncoderLayer.forward l q k v mask g) as [[r g1]|e] eqn:Hl.
      * pose proof (for_layers_quiet rest q k v mask (Some r) g1) as Hq2.
        destruct (TransformerUnit.for_layers rest q k v mask (Some r) g1)
          as [[vars g2]|e] eqn:Hf.
        -- apply for_layers_bound in Hf.
           destruct vars as [[o a]|]; [|congruence].
           rewrite bind_lift.
           pose proof (quiet_LayerNorm (TransformerUnit.layer_norm u) o) as Hq3.
           destruct (LayerNorm.forward (TransformerUnit.layer_norm u) o);
             [discriminate | intros E; exfalso; apply Hq3; congruence].
        -- intros E; exfalso; apply Hq2; congruence.
      * intros E; exfalso; apply Hq; congruence.
  - intros n_layers n_head d_k d_v d_model d_inner p values.
    rewrite <- length_zero_iff_nil, init_layer_stack_length. lia.
Qed.

(** C8 (what the code does): [return_attns] is not read; every successful
    call returns the normalised output alone, never a pair with attention
    weights. *)
Theorem forward_ignores_return_attns u query key value src_mask g :
  TransformerUnit.forward u query key value src_mask true g
  = TransformerUnit.forward u query key value src_mask false g
  /\ (forall return_attns enc_output attns g',
         TransformerUnit.forward u query key value src_mask return_attns g
         <> Ok (TransformerUnit.OutputWithAttns enc_output attns, g')).
Proof.
  split; [reflexivity|].
  intros ra o a g'. unfold TransformerUnit.forward, bind.
  destruct (TransformerUnit.for_layers _ _ _ _ _ _ g) as [[[[o' a']|] g1]|e];
    try discriminate.
  unfold lift, ret.
  destruct (LayerNorm.forward _ o'); discriminate.
Qed.

(** ** Forward passes with dropout disabled *)

Lemma Dropout_disabled_forward d x g :
  dropout_disabled d -> Dropout.forward d x g = Ok (x, g).
Proof.
  unfold dropout_disabled, Dropout.forward. intros H. rewrite H. reflexivity.
Qed.

Lemma repeatable_lift {A} (r : result A) : repeatable (lift r).
Proof. intros g1 g2. unfold lift. destruct r; auto. Qed.

Lemma repeatable_ret {A} (a : A) : repeatable (ret a).
Proof. intros g1 g2. unfold ret. auto. Qed.

Lemma repeatable_bind {A B} (m : M A) (f : A -> M B) :
  repeatable m -> (forall a, repeatable (f a)) -> repeatable (bind m f).
Proof.
  intros Hm Hf g1 g2. unfold bind. specialize (Hm g1 g2).
  destruct (m g1) as [[a1 g1']|e1], (m g2) as [[a2 g2']|e2]; try contradiction.
  - destruct Hm as (-> & -> & ->). apply Hf.
  - assumption.
Qed.

Lemma repeatable_Dropout d x : dropout_disabled d -> repeatable (Dropout.forward d x).
Proof.
  intros H g1 g2. rewrite !Dropout_disabled_forward by assumption. auto.
Qed.

Ltac repeatable_steps :=
  repeat first
    [ apply repeatable_ret
    | apply repeatable_lift
    | apply repeatable_Dropout; assumption
    | apply repeatable_bind; [| intros ]
    | match goal with
      | |- repeatable (let '(_, _) := ?x in _) => destruct x
      end ].

Lemma repeatable_SDPA self q k v mask :
  SDPA_no_dropout self ->
  repeatable (ScaledDotProductAttention.forward self q k v mask).
Proof.
  unfold SDPA_no_dropout. intros H.
  unfold ScaledDotProductAttention.forward. repeatable_steps.
Qed.

Lemma repeatable_MHA self q k v mask :
  MHA_no_dropout self ->
  repeatable (MultiHeadAttention.forward self q k v mask).
Proof.
  intros [H1 H2]. unfold MultiHeadAttention.forward.
  repeat first
    [ apply repeatable_SDPA; assumption
    | apply repeatable_ret
    | apply repeatable_lift
    | apply repeatable_Dropout; assumption
    | apply repeatable_bind; [| intros ]
    | match goal with
      | |- repeatable (let '(_, _) := ?x in _) => destruct x
      end ].
Qed.

Lemma repeatable_PFF self x :
  PFF_no_dropout self -> repeatable (PositionwiseFeedForward.forward self x).
Proof.
  unfold PFF_no_dropout. intros H.
  unfold PositionwiseFeedForward.forward. repeatable_steps.
Qed.

Lemma repeatable_EncoderLayer self q k v mask :
  EncoderLayer_no_dropout self ->
  repeatable (EncoderLayer.forward self q k v mask).
Proof.
  intros [H1 H2]. unfold EncoderLayer.forward.
  apply repeatable_bind; [apply repeatable_MHA; assumption|]. intros [o a].
  apply repeatable_bind; [apply repeatable_PFF; assumption|]. intros o'.
  apply repeatable_ret.
Qed.

Lemma repeatable_for_layers stack q k v mask vars :
  Forall EncoderLayer_no_dropout stack ->
  repeatable (TransformerUnit.for_layers stack q k v mask vars).
Proof.
  intros H. revert vars. induction H as [|l rest Hl Hrest IH]; intros vars; simpl.
  - apply repeatable_ret.
  - apply repeatable_bind; [apply repeatable_EncoderLayer; assumption|].
    intros r. apply IH.
Qed.

Lemma repeatable_Unit u q k v mask ra :
  Unit_no_dropout u -> repeatable (TransformerUnit.forward u q k v mask ra).
Proof.
  intros H. unfold TransformerUnit.forward.
  apply repeatable_bind; [apply repeatable_for_layers; assumption|].
  intros [[o a]|]; [repeatable_steps|].
  intros g1 g2. reflexivity.
Qed.

(** C9: with dropout disabled in every layer, two calls of
    [TransformerUnit.forward] on the same arguments, whatever the generator
    states they start from (in particular the second call starting where the
    first one stopped), return the same tensor or raise the same exception
    and leave the generator untouched; the same holds for each layer of the
    stack and for its attention and feed-forward parts. *)
Theorem forward_repeatable u :
  Unit_no_dropout u ->
  (forall query key value src_mask return_attns,
      repeatable (TransformerUnit.forward u query key value src_mask return_attns))
  /\ (forall l, In l (TransformerUnit.layer_stack u) ->
        (forall query key value mask,
            repeatable (EncoderLayer.forward l query key value mask))
        /\ (forall q k v mask,
               repeatable (MultiHeadAttention.forward (EncoderLayer.slf_attn l) q k v mask))
        /\ (forall q k v mask,
               repeatable (ScaledDotProductAttention.forward
                             (MultiHeadAttention.attention (EncoderLayer.slf_attn l))
                             q k v mask))
        /\ (forall x,
               repeatable (PositionwiseFeedForward.forward (EncoderLayer.pos_ffn l) x))).
Proof.
  intros Hu. split.
  - intros. apply repeatable_Unit; assumption.
  - intros l Hin. unfold Unit_no_dropout in Hu.
    rewrite Forall_forall in Hu. specialize (Hu l Hin).
    pose proof Hu as [[Hd Hs] Hp].
    repeat split; intros.
    + apply repeatable_EncoderLayer; assumption.
    + apply repeatable_MHA; split; assumption.
    + apply repeatable_SDPA; assumption.
    + apply repeatable_PFF; assumption.
Qed.

(** ** Shapes and exceptions depend on shapes only *)

Lemma sim_refl {A} (R : A -> A -> Prop) (r : result A) :
  (forall a, R a a) -> sim R r r.
Proof. intros H. destruct r; constructor; auto. Qed.

Lemma sim_rbind {A B A' B'} (R : A -> B -> Prop) (R' : A' -> B' -> Prop)
    r1 r2 (f1 : A -> result A') (f2 : B -> result B') :
  sim R r1 r2 ->
  (forall a b, R a b -> sim R' (f1 a) (f2 b)) ->
  sim R' (rbind r1 f1) (rbind r2 f2).
Proof. intros H Hf. destruct H; simpl; [auto | constructor]. Qed.

Lemma simM_lift {A B} (R : A -> B -> Prop) r1 r2 :
  sim R r1 r2 -> simM R (lift r1) (lift r2).
Proof. intros H g1 g2. unfold lift. destruct H; constructor; assumption. Qed.

Lemma simM_ret {A B} (R : A -> B -> Prop) a b : R a b -> simM R (ret a) (ret b).
Proof. intros H g1 g2. constructor. assumption. Qed.

Lemma simM_bind {A B A' B'} (R : A -> B -> Prop) (R' : A' -> B' -> Prop)
    m1 m2 (f1 : A -> M A') (f2 : B -> M B') :
  simM R m1 m2 ->
  (forall a b, R a b -> simM R' (f1 a) (f2 b)) ->
  simM R' (bind m1 f1) (bind m2 f2).
Proof.
  intros H Hf g1 g2. unfold bind. specialize (H g1 g2).
  destruct (m1 g1) as [[a g1']|e1], (m2 g2) as [[b g2']|e2]; inversion H; subst.
  - apply Hf. assumption.
  - constructor.
Qed.

Ltac sim_shape H :=
  unfold same_shape in *; cbv zeta; try rewrite H;
  break_match; constructor; simpl; congruence.

Lemma sim_view {A B} sizes (t1 : Tensor A) (t2 : Tensor B) :
  same_shape t1 t2 -> sim same_shape (view sizes t1) (view sizes t2).
Proof.
  intros H. unfold view, same_shape in *. rewrite H.
  destruct (infer_size sizes (numel (tshape t2))); constructor. reflexivity.
Qed.

Lemma sim_permute {A B} (d1 : A) (d2 : B) dims t1 t2 :
  same_shape t1 t2 -> sim same_shape (permute d1 dims t1) (permute d2 dims t2).
Proof. intros H. unfold permute. sim_shape H. Qed.

Lemma sim_transpose {A B} (d1 : A) (d2 : B) i j t1 t2 :
  same_shape t1 t2 -> sim same_shape (transpose d1 i j t1) (transpose d2 i j t2).
Proof. intros H. unfold transpose. sim_shape H. Qed.

Lemma sim_bmm a1 b1 a2 b2 :
  same_shape a1 a2 -> same_shape b1 b2 -> sim same_shape (bmm a1 b1) (bmm a2 b2).
Proof. intros Ha Hb. unfold bmm, same_shape in *. rewrite Ha, Hb. sim_shape Ha. Qed.

Lemma sim_masked_fill t1 t2 m v :
  same_shape t1 t2 -> sim same_shape (masked_fill t1 m v) (masked_fill t2 m v).
Proof. intros H. unfold masked_fill. sim_shape H. Qed.

Lemma sim_add a1 b1 a2 b2 :
  same_shape a1 a2 -> same_shape b1 b2 -> sim same_shape (add a1 b1) (add a2 b2).
Proof. intros Ha Hb. unfold add, same_shape in *. rewrite Ha, Hb. sim_shape Ha. Qed.

Lemma sim_softmax d t1 t2 :
  same_shape t1 t2 -> sim same_shape (softmax d t1) (softmax d t2).
Proof. intros H. unfold softmax. sim_shape H. Qed.

Lemma same_shape_div_scalar t1 t2 c1 c2 :
  same_shape t1 t2 -> same_shape (div_scalar t1 c1) (div_scalar t2 c2).
Proof. auto. Qed.

Lemma same_shape_relu t1 t2 :
  same_shape t1 t2 -> same_shape (relu t1) (relu t2).
Proof. auto. Qed.

Lemma sim_Linear i o l1 l2 x1 x2 :
  Linear_arch i o l1 -> Linear_arch i o l2 -> same_shape x1 x2 ->
  sim same_shape (Linear.forward l1 x1) (Linear.forward l2 x2).
Proof.
  intros [Hw1 Hb1] [Hw2 Hb2] H. unfold Linear.forward, same_shape in *.
  rewrite Hw1, Hb1, Hw2, Hb2, H. sim_shape H.
Qed.

Lemma sim_Conv1d i o l1 l2 x1 x2 :
  Conv1d_arch i o l1 -> Conv1d_arch i o l2 -> same_shape x1 x2 ->
  sim same_shape (Conv1d.forward l1 x1) (Conv1d.forward l2 x2).
Proof.
  intros [Hw1 Hb1] [Hw2 Hb2] H. unfold Conv1d.forward, same_shape in *.
  rewrite Hw1, Hb1, Hw2, Hb2, H. sim_shape H.
Qed.

Lemma sim_LayerNorm d l1 l2 x1 x2 :
  LayerNorm_arch d l1 -> LayerNorm_arch d l2 -> same_shape x1 x2 ->
  sim same_shape (LayerNorm.forward l1 x1) (LayerNorm.forward l2 x2).
Proof.
  intros H1 H2 H. unfold LayerNorm.forward, LayerNorm_arch, same_shape in *.
  rewrite H1, H2, H. sim_shape H.
Qed.

Lemma simM_Dropout d1 d2 x1 x2 :
  same_shape x1 x2 -> simM same_shape (Dropout.forward d1 x1) (Dropout.forward d2 x2).
Proof.
  intros H g1 g2. unfold Dropout.forward.
  break_match; constructor; simpl; exact H.
Qed.

Lemma sim_scores a1 a2 q1 q2 k1 k2 mask :
  same_shape q1 q2 -> same_shape k1 k2 ->
  sim same_shape (ScaledDotProductAttention.scores a1 q1 k1 mask)
                 (ScaledDotProductAttention.scores a2 q2 k2 mask).
Proof.
  intros Hq Hk. unfold ScaledDotProductAttention.scores.
  eapply sim_rbind; [apply sim_transpose; exact Hk|]. intros kt1 kt2 Hkt.
  eapply sim_rbind; [apply sim_bmm; assumption|]. intros s1 s2 Hs. cbv zeta.
  destruct mask as [m|].
  - apply sim_masked_fill. apply same_shape_div_scalar. assumption.
  - constructor. apply same_shape_div_scalar. assumption.
Qed.

Lemma simM_SDPA a1 a2 q1 q2 k1 k2 v1 v2 mask :
  same_shape q1 q2 -> same_shape k1 k2 -> same_shape v1 v2 ->
  simM same_shapes (ScaledDotProductAttention.forward a1 q1 k1 v1 mask)
                   (ScaledDotProductAttention.forward a2 q2 k2 v2 mask).
Proof.
  intros Hq Hk Hv. unfold ScaledDotProductAttention.forward,
    ScaledDotProductAttention.weights.
  eapply simM_bind.
  { apply simM_lift. eapply sim_rbind; [apply sim_scores; assumption|].
    intros s1 s2 Hs. apply sim_softmax. exact Hs. }
  intros w1 w2 Hw.
  eapply simM_bind; [apply simM_Dropout; exact Hw|]. intros d1 d2 Hd.
  eapply simM_bind; [apply simM_lift, sim_bmm; assumption|]. intros o1 o2 Ho.
  apply simM_ret. split; assumption.
Qed.

Lemma sim_merge_heads n b l d (o1 o2 : Tensor R) :
  same_shape o1 o2 ->
  sim same_shape (MultiHeadAttention.merge_heads 0%R n b l d o1)
                 (MultiHeadAttention.merge_heads 0%R n b l d o2).
Proof.
  intros H. unfold MultiHeadAttention.merge_heads.
  eapply sim_rbind; [apply sim_view; exact H|]. intros x1 x2 Hx.
  eapply sim_rbind; [apply sim_permute; exact Hx|]. intros y1 y2 Hy.
  apply sim_view. exact Hy.
Qed.

Lemma simM_MHA n_head d_model d_k d_v m1 m2 q k v mask :
  MHA_arch n_head d_model d_k d_v m1 -> MHA_arch n_head d_model d_k d_v m2 ->
  simM same_shapes (MultiHeadAttention.forward m1 q k v mask)
                   (MultiHeadAttention.forward m2 q k v mask).
Proof.
  intros (Hn1 & Hk1 & Hv1 & Hq1 & Hks1 & Hvs1 & Hln1 & Hfc1)
         (Hn2 & Hk2 & Hv2 & Hq2 & Hks2 & Hvs2 & Hln2 & Hfc2).
  unfold MultiHeadAttention.forward. rewrite Hn1, Hk1, Hv1, Hn2, Hk2, Hv2.
  cbv zeta.
  eapply simM_bind with (R := eq);
    [apply simM_lift, sim_refl; reflexivity|]. intros [[b1 lq] x1] ? <-.
  eapply simM_bind with (R := eq);
    [apply simM_lift, sim_refl; reflexivity|]. intros [[b2 lk] x2] ? <-.
  eapply simM_bind with (R := eq);
    [apply simM_lift, sim_refl; reflexivity|]. intros [[b3 lv] x3] ? <-.
  eapply simM_bind.
  { apply simM_lift. eapply sim_rbind;
      [eapply sim_Linear; [eassumption|eassumption|reflexivity]|].
    intros; apply sim_view; assumption. }
  intros q1 q2 Hq.
  eapply simM_bind.
  { apply simM_lift. eapply sim_rbind;
      [eapply sim_Linear; [eassumption|eassumption|reflexivity]|].
    intros; apply sim_view; assumption. }
  intros k1 k2 Hk.
  eapply simM_bind.
  { apply simM_lift. eapply sim_rbind;
      [eapply sim_Linear; [eassumption|eassumption|reflexivity]|].
    intros; apply sim_view; assumption. }
  intros v1 v2 Hv.
  eapply simM_bind.
  { apply simM_lift. eapply sim_rbind; [apply sim_permute; exact Hq|].
    intros; apply sim_view; assumption. }
  intros q1' q2' Hq'.
  eapply simM_bind.
  { apply simM_lift. eapply sim_rbind; [apply sim_permute; exact Hk|].
    intros; apply sim_view; assumption. }
  intros k1' k2' Hk'.
  eapply simM_bind.
  { apply simM_lift. eapply sim_rbind; [apply sim_permute; exact Hv|].
    intros; apply sim_view; assumption. }
  intros v1' v2' Hv'.
  eapply simM_bind; [apply simM_SDPA; assumption|].
  intros [o1 a1] [o2 a2] [Ho Ha]; simpl in Ho, Ha.
  eapply simM_bind; [apply simM_lift, sim_merge_heads; exact Ho|].
  intros c1 c2 Hc.
  eapply simM_bind;
    [apply simM_lift; eapply sim_Linear; [eassumption|eassumption|exact Hc]|].
  intros f1 f2 Hf.
  eapply simM_bind; [apply simM_Dropout; exact Hf|]. intros e1 e2 He.
  eapply simM_bind.
  { apply simM_lift. eapply sim_rbind; [apply sim_add; [exact He|reflexivity]|].
    intros; eapply sim_LayerNorm; eassumption. }
  intros y1 y2 Hy. apply simM_ret. split; assumption.
Qed.

Lemma simM_PFF d_in d_hid m1 m2 x1 x2 :
  PFF_arch d_in d_hid m1 -> PFF_arch d_in d_hid m2 -> same_shape x1 x2 ->
  simM same_shape (PositionwiseFeedForward.forward m1 x1)
                  (PositionwiseFeedForward.forward m2 x2).
Proof.
  intros (Ha1 & Hb1 & Hc1) (Ha2 & Hb2 & Hc2) Hx.
  unfold PositionwiseFeedForward.forward. cbv zeta.
  eapply simM_bind; [apply simM_lift, sim_transpose; exact Hx|]. intros t1 t2 Ht.
  eapply simM_bind.
  { apply simM_lift. eapply sim_rbind;
      [eapply sim_Conv1d; [eassumption|eassumption|exact Ht]|].
    intros h1 h2 Hh. eapply sim_Conv1d; [eassumption|eassumption|].
    apply same_shape_relu; exact Hh. }
  intros c1 c2 Hc.
  eapply simM_bind; [apply simM_lift, sim_transpose; exact Hc|]. intros u1 u2 Hu.
  eapply simM_bind; [apply simM_Dropout; exact Hu|]. intros e1 e2 He.
  eapply simM_bind.
  { apply simM_lift. eapply sim_rbind; [apply sim_add; [exact He|exact Hx]|].
    intros; eapply sim_LayerNorm; eassumption. }
  intros y1 y2 Hy. apply simM_ret. assumption.
Qed.

Lemma simM_EncoderLayer d_model d_inner n_head d_k d_v l1 l2 q k v mask :
  EncoderLayer_arch d_model d_inner n_head d_k d_v l1 ->
  EncoderLayer_arch d_model d_inner n_head d_k d_v l2 ->
  simM same_shapes (EncoderLayer.forward l1 q k v mask)
                   (EncoderLayer.forward l2 q k v mask).
Proof.
  intros [Ha1 Hp1] [Ha2 Hp2]. unfold EncoderLayer.forward.
  eapply simM_bind; [eapply simM_MHA; eassumption|].
  intros [o1 a1] [o2 a2] [Ho Ha]; simpl in Ho, Ha.
  eapply simM_bind; [eapply simM_PFF; eassumption|]. intros y1 y2 Hy.
  apply simM_ret. split; assumption.
Qed.

(** ** TransformerUnit: only the last layer counts *)

Lemma for_layers_app pre post q k v mask vars g :
  TransformerUnit.for_layers (pre ++ post) q k v mask vars g
  = bind (TransformerUnit.for_layers pre q k v mask vars)
         (fun vars' => TransformerUnit.for_layers post q k v mask vars') g.
Proof.
  revert vars g. induction pre as [|l pre IH]; intros vars g; simpl.
  - reflexivity.
  - unfold bind. destruct (EncoderLayer.forward l q k v mask g) as [[r g1]|e].
    + rewrite IH. reflexivity.
    + reflexivity.
Qed.

Lemma for_layers_raise d_model d_inner n_head d_k d_v stack last q k v mask vars g e :
  Forall (EncoderLayer_arch d_model d_inner n_head d_k d_v) stack ->
  EncoderLayer_arch d_model d_inner n_head d_k d_v last ->
  TransformerUnit.for_layers stack q k v mask vars g = Raise e ->
  forall g', EncoderLayer.forward last q k v mask g' = Raise e.
Proof.
  intros Hs Hl. revert vars g.
  induction Hs as [|l rest Harch Hrest IH]; intros vars g; simpl.
  - discriminate.
  - unfold bind. intros H g'.
    pose proof (simM_EncoderLayer _ _ _ _ _ l last q k v mask Harch Hl g g') as Hsim.
    destruct (EncoderLayer.forward l q k v mask g) as [[r g1]|e1].
    + eapply IH; eassumption.
    + inversion Hsim; subst. congruence.
Qed.

Lemma repeatable_generator {A} (m : M A) g a g' :
  repeatable m -> m g = Ok (a, g') -> g' = g.
Proof. intros H E. specialize (H g g). rewrite E in H. tauto. Qed.

Lemma nonempty_last {A} (l : list A) :
  l <> [] -> exists rest x, l = rest ++ [x].
Proof.
  intros H. destruct (exists_last H) as (rest & x & E). eauto.
Qed.

(** C1: in a unit built with [n_layers >= 1] layers, every layer of the
    stack is called on the original (query, key, value) and mask, whatever
    the previous layers produced, and its result replaces theirs; so the call
    equals the last layer alone applied to the original arguments, followed
    by the final layer normalisation.  (The generator state seen by the last
    layer is the one left by the previous layers; it is the initial one when
    dropout is disabled.) *)
Theorem forward_is_last_layer n_layers n_head d_k d_v d_model d_inner u :
  Unit_arch n_layers n_head d_k d_v d_model d_inner u ->
  (1 <= n_layers)%Z ->
  exists rest last,
    TransformerUnit.layer_stack u = rest ++ [last]
    /\ (forall pre l post query key value src_mask g,
           TransformerUnit.layer_stack u = pre ++ l :: post ->
           TransformerUnit.for_layers (TransformerUnit.layer_stack u)
             query key value src_mask None g
           = (vars <- TransformerUnit.for_layers pre query key value src_mask None ;;
              r <- EncoderLayer.forward l query key value src_mask ;;
              TransformerUnit.for_layers post query key value src_mask (Some r)) g)
    /\ (forall query key value src_mask return_attns g,
           exists g1,
             TransformerUnit.forward u query key value src_mask return_attns g
             = (r <- EncoderLayer.forward last query key value src_mask ;;
                enc_output <- lift (LayerNorm.forward (TransformerUnit.layer_norm u)
                                                      (fst r)) ;;
                ret (TransformerUnit.Output enc_output)) g1
             /\ (Unit_no_dropout u -> g1 = g)).
Proof.
  intros (Hlen & Harch & Hln) Hn.
  assert (Hne : TransformerUnit.layer_stack u <> []).
  { intros E. rewrite E in Hlen. simpl in Hlen. lia. }
  destruct (nonempty_last _ Hne) as (rest & last & Hstack).
  exists rest, last. split; [exact Hstack|]. split.
  - intros pre l post q k v mask g E. rewrite E, for_layers_app. reflexivity.
  - intros q k v mask ra g.
    rewrite Hstack in Harch. apply Forall_app in Harch as [Hrest Hlast].
    inversion Hlast as [|? ? Hlast' _]; subst.
    unfold TransformerUnit.forward. rewrite Hstack.
    destruct (TransformerUnit.for_layers rest q k v mask None g)
      as [[vars g1]|e] eqn:Hloop.
    + exists g1. split.
      * unfold bind at 1. rewrite for_layers_app. unfold bind at 1.
        rewrite Hloop. simpl. unfold bind.
        destruct (EncoderLayer.forward last q k v mask g1) as [[[o a] g2]|e];
          reflexivity.
      * intros Hnd. unfold Unit_no_dropout in Hnd. rewrite Hstack in Hnd.
        apply Forall_app in Hnd as [Hnd _].
        eapply repeatable_generator; [|exact Hloop].
        apply repeatable_for_layers. assumption.
    + exists g. split; [|reflexivity].
      unfold bind at 1. rewrite for_layers_app. unfold bind at 1.
      rewrite Hloop.
      pose proof (for_layers_raise _ _ _ _ _ _ _ _ _ _ _ _ _ _
                    Hrest Hlast' Hloop g) as Hr.
      unfold bind. rewrite Hr. reflexivity.
Qed.

(** ** Views and permutations *)

Lemma get_reshape {A} (dflt : A) (t : Tensor A) s' idx' idx :
  ravel s' idx' = ravel (tshape t) idx ->
  get dflt (mkTensor s' (tdata t)) idx' = get dflt t idx.
Proof. unfold get; simpl. intros ->. reflexivity. Qed.

Lemma numel_map_D dims : numel (map dim_extent (map D dims)) = numel dims.
Proof. induction dims; simpl; auto. Qed.

Lemma filter_infer_D dims : filter is_infer (map D dims) = [].
Proof. induction dims; simpl; auto. Qed.

Lemma map_extent_D dims : map dim_extent (map D dims) = dims.
Proof. induction dims; simpl; congruence. Qed.

(** A view with explicit extents succeeds exactly on a matching count. *)
Lemma view_explicit {A} dims (t : Tensor A) :
  numel (tshape t) = numel dims ->
  view (map D dims) t = Ok (mkTensor dims (tdata t)).
Proof.
  intros H. unfold view, infer_size.
  rewrite filter_infer_D, numel_map_D, map_extent_D. simpl.
  rewrite H, Nat.eqb_refl. reflexivity.
Qed.

(** [view(-1, a, b)] on a tensor of [k * (a * b)] entries, [a * b > 0]. *)
Lemma view_infer_first {A} k a b (t : Tensor A) :
  numel (tshape t) = k * (a * b) -> 0 < a * b ->
  view [Infer; D a; D b] t = Ok (mkTensor [k; a; b] (tdata t)).
Proof.
  intros H Hpos. unfold view, infer_size.
  cbn [filter is_infer length map dim_extent numel fold_right Nat.ltb Nat.leb Nat.eqb].
  replace (1 * (a * (b * 1))) with (a * b) by ring.
  rewrite H, Nat.Div0.mod_mul, Nat.div_mul by lia.
  destruct (a * b) as [|m] eqn:E; [lia|].
  rewrite orb_true_r. reflexivity.
Qed.

(** [view(a, b, -1)] on a tensor of [a * b * k] entries, [a * b > 0]. *)
Lemma view_infer_last {A} k a b (t : Tensor A) :
  numel (tshape t) = a * b * k -> 0 < a * b ->
  view [D a; D b; Infer] t = Ok (mkTensor [a; b; k] (tdata t)).
Proof.
  intros H Hpos. unfold view, infer_size.
  cbn [filter is_infer length map dim_extent numel fold_right Nat.ltb Nat.leb Nat.eqb].
  replace (a * (b * (1 * 1))) with (a * b) by ring.
  rewrite H, (Nat.mul_comm (a * b) k), Nat.Div0.mod_mul, Nat.div_mul by lia.
  destruct (a * b) as [|m] eqn:E; [lia|].
  rewrite orb_true_r. reflexivity.
Qed.

Section HeadReshape.
Variable A : Type.
Variable dflt : A.


(** Moving the heads back next to the features (lines 81-82). *)
Lemma merge_heads_ok n_head sz_b len d (o : Tensor A) :
  tshape o = [n_head * sz_b; len; d] -> 1 <= sz_b -> 1 <= len ->
  exists merged,
    MultiHeadAttention.merge_heads dflt n_head sz_b len d o = Ok merged
    /\ wf merged
    /\ tshape merged = [sz_b; len; n_head * d]
    /\ forall h b l j, h < n_head -> b < sz_b -> l < len -> j < d ->
         get dflt merged [b; l; h * d + j] = get dflt o [h * sz_b + b; l; j].
Proof.
  intros Hs Hb Hlen. unfold MultiHeadAttention.merge_heads.
  rewrite (view_explicit [n_head; sz_b; len; d]) by (rewrite Hs; simpl; ring).
  simpl rbind. unfold permute. simpl tshape. simpl is_perm. cbv iota.
  simpl rbind.
  match goal with
  | |- context [view _ ?t] => set (p := t)
  end.
  rewrite (view_infer_last (n_head * d) sz_b len p);
    [| subst p; simpl; ring | nia].
  eexists. split; [reflexivity|]. split.
  { unfold wf; subst p; simpl. rewrite length_map, length_seq. ring. }
  split; [reflexivity|].
  intros h b l j Hh Hb' Hl Hj.
  rewrite (get_reshape dflt p _ _ [b; l; h; j]) by (subst p; simpl; ring).
  subst p. rewrite get_tabulate by (simpl; tauto).
  simpl map. apply get_reshape. rewrite Hs. simpl. ring.
Qed.
End HeadReshape.

Lemma in_bounds3 s0 s1 s2 idx :
  in_bounds [s0; s1; s2] idx ->
  exists a b c, idx = [a; b; c] /\ a < s0 /\ b < s1 /\ c < s2.
Proof.
  destruct idx as [|a [|b [|c [|? ?]]]]; simpl; try tauto.
  intros (Ha & Hb & Hc & _). eauto 8.
Qed.



Example split_heads_example :
  MultiHeadAttention.split_heads 0 1 2 2 1 (mkTensor [1; 2; 2] [10; 11; 20; 21])
  = Ok (mkTensor [2; 2; 1] [10; 20; 11; 21]).
Proof. reflexivity. Qed.

Example merge_heads_example :
  MultiHeadAttention.merge_heads 0 2 1 2 1 (mkTensor [2; 2; 1] [10; 20; 11; 21])
  = Ok (mkTensor [1; 2; 2] [10; 11; 20; 21]).
Proof. reflexivity. Qed.

(** ** Finite sums *)

Open Scope R_scope.

Lemma sum_n_S f n : sum_n f (S n) = sum_n f n + f n.
Proof.
  unfold sum_n. rewrite seq_S, map_app. simpl.
  induction (map f (seq 0 n)) as [|x l IH]; simpl.
  - ring.
  - rewrite IH. ring.
Qed.

Lemma sum_n_0 f : sum_n f 0 = 0.
Proof. reflexivity. Qed.

Lemma sum_n_ext f g n :
  (forall l, (l < n)%nat -> f l = g l) -> sum_n f n = sum_n g n.
Proof.
  induction n as [|n IH]; intros H; [reflexivity|].
  rewrite !sum_n_S, IH, H by (intros; try apply H; lia). reflexivity.
Qed.


Lemma sum_n_const c n : sum_n (fun _ => c) n = INR n * c.
Proof.
  induction n as [|n IH].
  - unfold sum_n; simpl. ring.
  - rewrite sum_n_S, IH, S_INR. ring.
Qed.




Close Scope R_scope.

(** ** Entries computed by the operators *)

Lemma get_div_scalar t c idx :
  rget (div_scalar t c) idx = (rget t idx / c)%R.
Proof.
  unfold rget, get, div_scalar; simpl.
  replace 0%R with ((fun x => x / c)%R 0%R) at 1 by (unfold Rdiv; ring).
  exact (map_nth (fun x => (x / c)%R) (tdata t) 0%R (ravel (tshape t) idx)).
Qed.

Lemma clamp_index_in_bounds s : forall idx, in_bounds s idx -> clamp_index s idx = idx.
Proof.
  induction s as [|n s IH]; intros [|i idx]; simpl; try tauto.
  intros [Hi Hb]. rewrite IH by assumption.
  destruct (Nat.eqb_spec n 1); [f_equal; lia | reflexivity].
Qed.

Lemma bcast_index_same s idx : in_bounds s idx -> bcast_index s idx = idx.
Proof.
  intros H. unfold bcast_index.
  rewrite (in_bounds_length _ _ H), Nat.sub_diag. simpl.
  apply clamp_index_in_bounds. assumption.
Qed.

Lemma broadcast_zip_same s : broadcast_zip s s = Some s.
Proof.
  induction s as [|n s IH]; simpl; [reflexivity|].
  rewrite IH, Nat.eqb_refl. reflexivity.
Qed.

Lemma broadcast_shapes_same s : broadcast_shapes s s = Some s.
Proof.
  unfold broadcast_shapes, pad. rewrite Nat.max_id, Nat.sub_diag. simpl.
  apply broadcast_zip_same.
Qed.

Lemma transpose12_ok {A} (dflt : A) (t : Tensor A) a b c :
  tshape t = [a; b; c] ->
  transpose dflt 1 2 t
  = Ok (tabulate [a; c; b] (fun idx => get dflt t (swap 1 2 idx))).
Proof. intros H. unfold transpose. rewrite H. reflexivity. Qed.

Lemma bmm_ok x y a n m p :
  tshape x = [a; n; m] -> tshape y = [a; m; p] ->
  bmm x y
  = Ok (tabulate [a; n; p]
          (fun idx =>
             match idx with
             | [b_; i; j] =>
                 sum_n (fun l => rget x [b_; i; l] * rget y [b_; l; j])%R m
             | _ => 0%R
             end)).
Proof.
  intros Hx Hy. unfold bmm. rewrite Hx, Hy, !Nat.eqb_refl. reflexivity.
Qed.

(** ** ScaledDotProductAttention *)

Section Attention.
Variable self : ScaledDotProductAttention.t.
Variables B Lq Lk Dk : nat.
Variables q k : Tensor R.
Hypothesis Hq : tshape q = [B; Lq; Dk].
Hypothesis Hk : tshape k = [B; Lk; Dk].

Let temp := ScaledDotProductAttention.temperature self.

(** Q K^T / temperature, before masking. *)
Let raw (b i j : nat) : R :=
  (sum_n (fun c => rget q [b; i; c] * rget k [b; j; c]) Dk / temp)%R.

(** The product Q K^T as [forward] builds it. *)
Let qk : Tensor R :=
  tabulate [B; Lq; Lk]
    (fun idx =>
       match idx with
       | [b_; i; j] =>
           sum_n (fun l => rget q [b_; i; l]
                           * rget (tabulate [B; Dk; Lk]
                                     (fun idx => get 0%R k (swap 1 2 idx)))
                                  [b_; l; j])%R Dk
       | _ => 0%R
       end).

Lemma scores_unfold mask :
  ScaledDotProductAttention.scores self q k mask
  = match mask with
    | Some m => masked_fill (div_scalar qk temp) m ScaledDotProductAttention.neg_1e9
    | None => Ok (div_scalar qk temp)
    end.
Proof.
  unfold ScaledDotProductAttention.scores.
  rewrite (transpose12_ok 0%R k B Lk Dk Hk). simpl rbind.
  erewrite bmm_ok; [| exact Hq | reflexivity]. reflexivity.
Qed.

Lemma qk_entry b i j :
  b < B -> i < Lq -> j < Lk ->
  rget (div_scalar qk temp) [b; i; j] = raw b i j.
Proof.
  intros Hb Hi Hj. rewrite get_div_scalar. unfold rget at 1, qk.
  rewrite get_tabulate by (simpl; tauto).
  unfold raw. f_equal. apply sum_n_ext. intros c Hc.
  f_equal. unfold rget at 1. rewrite get_tabulate by (simpl; tauto).
  reflexivity.
Qed.

Lemma qk_wf : wf (div_scalar qk temp).
Proof.
  unfold wf, div_scalar, qk; simpl. rewrite !length_map, length_seq. reflexivity.
Qed.

Lemma scores_shape mask :
  mask_fits [B; Lq; Lk] mask ->
  exists s, ScaledDotProductAttention.scores self q k mask = Ok s
            /\ wf s /\ tshape s = [B; Lq; Lk].
Proof.
  intros Hm. rewrite scores_unfold.
  destruct mask as [m|]; simpl in Hm.
  - unfold masked_fill. simpl tshape. rewrite Hm.
    eexists. split; [reflexivity|]. split; [apply tabulate_wf|reflexivity].
  - eexists. split; [reflexivity|]. split; [apply qk_wf|reflexivity].
Qed.

Lemma scores_entry mask b i j :
  match mask with Some m => tshape m = [B; Lq; Lk] | None => True end ->
  b < B -> i < Lq -> j < Lk ->
  exists s, ScaledDotProductAttention.scores self q k mask = Ok s
            /\ wf s /\ tshape s = [B; Lq; Lk]
            /\ rget s [b; i; j]
               = if suppressed mask [b; i; j]
                 then ScaledDotProductAttention.neg_1e9 else raw b i j.
Proof.
  intros Hm Hb Hi Hj. rewrite scores_unfold.
  destruct mask as [m|].
  - unfold masked_fill. simpl tshape. rewrite Hm, broadcast_shapes_same.
    eexists. split; [reflexivity|]. split; [apply tabulate_wf|].
    split; [reflexivity|].
    unfold rget at 1. rewrite get_tabulate by (simpl; tauto).
    rewrite !bcast_index_same by (simpl; tauto). simpl suppressed.
    destruct (get false m [b; i; j]); [reflexivity|].
    apply qk_entry; assumption.
  - eexists. split; [reflexivity|]. split; [apply qk_wf|].
    split; [reflexivity|]. simpl suppressed. apply qk_entry; assumption.
Qed.

End Attention.

Lemma softmax2_ok B Lq Lk (s : Tensor R) :
  tshape s = [B; Lq; Lk] ->
  softmax 2 s
  = Ok (tabulate [B; Lq; Lk]
          (fun idx =>
             (exp (rget s idx)
              / sum_n (fun l => exp (rget s (set_coord 2 l idx))) Lk)%R)).
Proof. intros H. unfold softmax. rewrite H. reflexivity. Qed.

Lemma softmax2_entry B Lq Lk (s a : Tensor R) b i j :
  tshape s = [B; Lq; Lk] -> softmax 2 s = Ok a ->
  b < B -> i < Lq -> j < Lk ->
  rget a [b; i; j]
  = (exp (rget s [b; i; j]) / sum_n (fun l => exp (rget s [b; i; l])) Lk)%R.
Proof.
  intros Hs Ha Hb Hi Hj. rewrite (softmax2_ok B Lq Lk s Hs) in Ha.
  inversion Ha; subst a. unfold rget at 1.
  rewrite get_tabulate by (simpl; tauto). reflexivity.
Qed.


Lemma weights_ok self B Lq Lk Dk q k mask :
  tshape q = [B; Lq; Dk] -> tshape k = [B; Lk; Dk] ->
  mask_fits [B; Lq; Lk] mask ->
  exists s a,
    ScaledDotProductAttention.scores self q k mask = Ok s
    /\ tshape s = [B; Lq; Lk]
    /\ softmax 2 s = Ok a
    /\ ScaledDotProductAttention.weights self q k mask = Ok a
    /\ wf a /\ tshape a = [B; Lq; Lk].
Proof.
  intros Hq Hk Hm.
  destruct (scores_shape self B Lq Lk Dk q k Hq Hk mask Hm) as (s & Hs & Hwf & Hsh).
  exists s. eexists. split; [exact Hs|]. split; [exact Hsh|].
  unfold ScaledDotProductAttention.weights. rewrite Hs. simpl rbind.
  rewrite (softmax2_ok B Lq Lk s Hsh).
  split; [reflexivity|]. split; [reflexivity|].
  split; [apply tabulate_wf | reflexivity].
Qed.

Lemma SDPA_forward_ok self B Lq Lk Dv q k v mask a g :
  ScaledDotProductAttention.weights self q k mask = Ok a ->
  tshape a = [B; Lq; Lk] -> tshape v = [B; Lk; Dv] ->
  SDPA_no_dropout self ->
  ScaledDotProductAttention.forward self q k v mask g
  = Ok ((tabulate [B; Lq; Dv]
           (fun idx =>
              match idx with
              | [b_; i; j] =>
                  sum_n (fun l => rget a [b_; i; l] * rget v [b_; l; j])%R Lk
              | _ => 0%R
              end), a), g).
Proof.
  intros Hw Ha Hv Hd. unfold ScaledDotProductAttention.forward.
  rewrite Hw, bind_lift. unfold bind at 1.
  rewrite Dropout_disabled_forward by exact Hd.
  rewrite (bmm_ok a v B Lq Lk Dv Ha Hv), bind_lift. reflexivity.
Qed.



(** ** Masked positions *)

Section Masking.
Variable self : ScaledDotProductAttention.t.
Variables B Lq Lk Dk : nat.
Variables q k : Tensor R.
Variable m : Tensor bool.
Hypothesis Hq : tshape q = [B; Lq; Dk].
Hypothesis Hk : tshape k = [B; Lk; Dk].
Hypothesis Hm : tshape m = [B; Lq; Lk].

Variables s0 s a : Tensor R.
Hypothesis Hs0 : ScaledDotProductAttention.scores self q k None = Ok s0.
Hypothesis Hs : ScaledDotProductAttention.scores self q k (Some m) = Ok s.
Hypothesis Ha : ScaledDotProductAttention.weights self q k (Some m) = Ok a.





End Masking.



(** ** Shapes produced by the layers *)

Lemma Linear_ok i o l x a b :
  Linear_arch i o l -> tshape x = [a; b; i] ->
  exists y, Linear.forward l x = Ok y /\ tshape y = [a; b; o].
Proof.
  intros [Hw Hb] Hx. unfold Linear.forward. rewrite Hw, Hb, Hx. simpl.
  rewrite !Nat.eqb_refl. simpl. eexists. split; reflexivity.
Qed.


Lemma LayerNorm_ok d m x a b :
  LayerNorm_arch d m -> tshape x = [a; b; d] ->
  exists y, LayerNorm.forward m x = Ok y /\ tshape y = [a; b; d].
Proof.
  intros Hm Hx. unfold LayerNorm.forward, LayerNorm_arch in *.
  rewrite Hx, Hm. simpl. rewrite Nat.eqb_refl. eexists. split; reflexivity.
Qed.

Lemma add_ok x y s :
  tshape x = s -> tshape y = s ->
  exists z, add x y = Ok z /\ tshape z = s.
Proof.
  intros Hx Hy. unfold add. rewrite Hx, Hy, broadcast_shapes_same.
  eexists. split; reflexivity.
Qed.

Lemma Dropout_ok d x g :
  exists y g', Dropout.forward d x g = Ok (y, g') /\ tshape y = tshape x.
Proof.
  unfold Dropout.forward.
  destruct (Qeq_bool (Dropout.p d) 0 || negb (Dropout.training d)
            || (numel (tshape x) =? 0)).
  - eexists _, _. split; reflexivity.
  - destruct (Qeq_bool (Dropout.p d) 1); eexists _, _; split; reflexivity.
Qed.

Lemma heads_first_ok (x : Tensor R) sz_b len n_head d :
  tshape x = [sz_b; len; n_head; d] -> 1 <= len -> 1 <= d ->
  exists y, rbind (permute 0%R [2; 0; 1; 3] x) (view [Infer; D len; D d]) = Ok y
            /\ tshape y = [n_head * sz_b; len; d].
Proof.
  intros Hx Hlen Hd. unfold permute. rewrite Hx. simpl is_perm. cbv iota.
  simpl rbind.
  match goal with
  | |- context [view _ ?t] => set (p := t)
  end.
  rewrite (view_infer_first (n_head * sz_b) len d p);
    [| subst p; simpl; ring | nia].
  eexists. split; reflexivity.
Qed.

Lemma project_heads_ok i n_head d w (x : Tensor R) sz_b len :
  Linear_arch i (n_head * d) w -> tshape x = [sz_b; len; i] ->
  exists y, rbind (Linear.forward w x) (view [D sz_b; D len; D n_head; D d]) = Ok y
            /\ tshape y = [sz_b; len; n_head; d].
Proof.
  intros Hw Hx.
  destruct (Linear_ok i (n_head * d) w x sz_b len Hw Hx) as (y & Hy & Hsh).
  rewrite Hy. simpl rbind.
  rewrite (view_explicit [sz_b; len; n_head; d]) by (rewrite Hsh; simpl; ring).
  eexists. split; reflexivity.
Qed.

Lemma size3_ok {A} (t : Tensor A) a b c :
  tshape t = [a; b; c] -> size3 t = Ok (a, b, c).
Proof. intros H. unfold size3. rewrite H. reflexivity. Qed.

(** With inputs of valid shapes, [MultiHeadAttention.forward] is the inner
    attention on the head tensors followed by the recombination, the output
    projection, the residual connection and the normalisation. *)
Lemma MHA_forward_unfold n_head d_model d_k d_v self q k v B Lq Lk :
  MHA_arch n_head d_model d_k d_v self ->
  tshape q = [B; Lq; d_model] -> tshape k = [B; Lk; d_model] ->
  tshape v = [B; Lk; d_model] ->
  1 <= Lq -> 1 <= Lk -> 1 <= d_k -> 1 <= d_v ->
  exists qh kh vh,
    tshape qh = [n_head * B; Lq; d_k]
    /\ tshape kh = [n_head * B; Lk; d_k]
    /\ tshape vh = [n_head * B; Lk; d_v]
    /\ forall mask g,
         MultiHeadAttention.forward self q k v mask g
         = ('(output, attn) <-
              ScaledDotProductAttention.forward
                (MultiHeadAttention.attention self) qh kh vh mask ;;
            output <- lift (MultiHeadAttention.merge_heads 0%R n_head B Lq d_v output) ;;
            output <- lift (Linear.forward (MultiHeadAttention.fc self) output) ;;
            output <- Dropout.forward (MultiHeadAttention.dropout self) output ;;
            output <- lift (rbind (add output q)
                                  (LayerNorm.forward
                                     (MultiHeadAttention.layer_norm self))) ;;
            ret (output, attn)) g.
Proof.
  intros (Hn & Hdk & Hdv & Hwq & Hwk & Hwv & Hln & Hfc) Hq Hk Hv HLq HLk Hk1 Hv1.
  destruct (project_heads_ok _ _ _ _ q B Lq Hwq Hq) as (q4 & Eq4 & Sq4).
  destruct (project_heads_ok _ _ _ _ k B Lk Hwk Hk) as (k4 & Ek4 & Sk4).
  destruct (project_heads_ok _ _ _ _ v B Lk Hwv Hv) as (v4 & Ev4 & Sv4).
  destruct (heads_first_ok q4 _ _ _ _ Sq4 HLq Hk1) as (qh & Eqh & Sqh).
  destruct (heads_first_ok k4 _ _ _ _ Sk4 HLk Hk1) as (kh & Ekh & Skh).
  destruct (heads_first_ok v4 _ _ _ _ Sv4 HLk Hv1) as (vh & Evh & Svh).
  exists qh, kh, vh. repeat split; try assumption.
  intros mask g. unfold MultiHeadAttention.forward.
  rewrite Hn, Hdk, Hdv. cbv zeta.
  rewrite (size3_ok q _ _ _ Hq), bind_lift.
  rewrite (size3_ok k _ _ _ Hk), bind_lift.
  rewrite (size3_ok v _ _ _ Hv), bind_lift.
  rewrite Eq4, bind_lift, Ek4, bind_lift, Ev4, bind_lift.
  rewrite Eqh, bind_lift, Ekh, bind_lift, Evh, bind_lift.
  reflexivity.
Qed.

Lemma SDPA_forward_shape self a Lq Lk dk dv qh kh vh mask g :
  tshape qh = [a; Lq; dk] -> tshape kh = [a; Lk; dk] -> tshape vh = [a; Lk; dv] ->
  mask_fits [a; Lq; Lk] mask ->
  exists out attn g',
    ScaledDotProductAttention.forward self qh kh vh mask g = Ok ((out, attn), g')
    /\ tshape out = [a; Lq; dv] /\ tshape attn = [a; Lq; Lk].
Proof.
  intros Hq Hk Hv Hm.
  destruct (weights_ok self a Lq Lk dk qh kh mask Hq Hk Hm)
    as (s & w & _ & _ & _ & Hw & _ & Hsh).
  unfold ScaledDotProductAttention.forward. rewrite Hw, bind_lift.
  unfold bind at 1.
  destruct (Dropout_ok (ScaledDotProductAttention.dropout self) w g)
    as (w' & g' & Ed & Sd).
  rewrite Ed. rewrite Hsh in Sd.
  rewrite (bmm_ok w' vh a Lq Lk dv Sd Hv), bind_lift.
  eexists _, _, _. split; [reflexivity|]. split; [reflexivity | exact Sd].
Qed.






(** ** The mask inside MultiHeadAttention *)

Lemma MHA_init_arch n_head d_model d_k d_v p values :
  MHA_arch n_head d_model d_k d_v
    (MultiHeadAttention.init n_head d_model d_k d_v p values).
Proof. unfold MHA_arch, Linear_arch, LayerNorm_arch. simpl. tauto. Qed.

Lemma PFF_init_arch d_in d_hid p values :
  PFF_arch d_in d_hid (PositionwiseFeedForward.init d_in d_hid p values).
Proof. unfold PFF_arch, Conv1d_arch, LayerNorm_arch. simpl. tauto. Qed.

Lemma EncoderLayer_init_arch d_model d_inner n_head d_k d_v p values :
  EncoderLayer_arch d_model d_inner n_head d_k d_v
    (EncoderLayer.init d_model d_inner n_head d_k d_v p values).
Proof. split; [apply MHA_init_arch | apply PFF_init_arch]. Qed.

Lemma Unit_init_arch n_layers n_head d_k d_v d_model d_inner p values :
  Unit_arch n_layers n_head d_k d_v d_model d_inner
    (TransformerUnit.init n_layers n_head d_k d_v d_model d_inner p values).
Proof.
  split; [apply init_layer_stack_length|]. split; [|reflexivity].
  simpl. apply Forall_forall. intros l Hin. apply in_map_iff in Hin.
  destruct Hin as (i & <- & _). apply EncoderLayer_init_arch.
Qed.









(** ** Instances on concrete modules and inputs *)

Lemma forward_is_last_layer_witness :
  Unit_arch 2 2 1 1 1 1 unit_two_layers
  /\ (1 <= 2)%Z
  /\ exists rest last,
       TransformerUnit.layer_stack unit_two_layers = rest ++ [last]
       /\ (forall pre l post query key value src_mask g,
              TransformerUnit.layer_stack unit_two_layers = pre ++ l :: post ->
              TransformerUnit.for_layers (TransformerUnit.layer_stack unit_two_layers)
                query key value src_mask None g
              = (vars <- TransformerUnit.for_layers pre query key value src_mask None ;;
                 r <- EncoderLayer.forward l query key value src_mask ;;
                 TransformerUnit.for_layers post query key value src_mask (Some r)) g)
       /\ (forall query key value src_mask return_attns g,
              exists g1,
                TransformerUnit.forward unit_two_layers query key value src_mask
                  return_attns g
                = (r <- EncoderLayer.forward last query key value src_mask ;;
                   enc_output <- lift (LayerNorm.forward
                                         (TransformerUnit.layer_norm unit_two_layers)
                                         (fst r)) ;;
                   ret (TransformerUnit.Output enc_output)) g1
                /\ (Unit_no_dropout unit_two_layers -> g1 = g)).
Proof.
  assert (Harch : Unit_arch 2 2 1 1 1 1 unit_two_layers)
    by (apply Unit_init_arch).
  assert (Hn : (1 <= 2)%Z) by lia.
  split; [exact Harch|]. split; [exact Hn|].
  exact (forward_is_last_layer 2 2 1 1 1 1 unit_two_layers Harch Hn).
Defined.






Lemma unit_eval_no_dropout : Unit_no_dropout unit_eval.
Proof. unfold Unit_no_dropout. simpl. repeat constructor. Qed.

Lemma forward_repeatable_witness :
  Unit_no_dropout unit_eval
  /\ (forall query key value src_mask return_attns,
         repeatable (TransformerUnit.forward unit_eval query key value src_mask
                       return_attns))
  /\ (forall l, In l (TransformerUnit.layer_stack unit_eval) ->
        (forall query key value mask,
            repeatable (EncoderLayer.forward l query key value mask))
        /\ (forall q k v mask,
               repeatable (MultiHeadAttention.forward (EncoderLayer.slf_attn l) q k v mask))
        /\ (forall q k v mask,
               repeatable (ScaledDotProductAttention.forward
                             (MultiHeadAttention.attention (EncoderLayer.slf_attn l))
                             q k v mask))
        /\ (forall x,
               repeatable (PositionwiseFeedForward.forward (EncoderLayer.pos_ffn l) x))).
Proof.
  split; [exact unit_eval_no_dropout|].
  exact (forward_repeatable unit_eval unit_eval_no_dropout).
Defined.

(** ** Small evaluations *)

Example view_infer_ambiguous :
  infer_size [Infer; D 0; D 3] 0 = Raise RuntimeError.
Proof. reflexivity. Qed.

Example view_infer_heads : infer_size [Infer; D 3; D 4] 24 = Ok [2; 3; 4].
Proof. reflexivity. Qed.

Example broadcast_heads_mismatch : broadcast_shapes [4; 3; 5] [2; 3; 5] = None.
Proof. reflexivity. Qed.

Example broadcast_single_batch :
  broadcast_shapes [4; 3; 5] [1; 3; 5] = Some [4; 3; 5].
Proof. reflexivity. Qed.

Example permute_heads_first :
  permute 0 [2; 0; 1; 3] (mkTensor [1; 2; 2; 1] [10; 11; 20; 21])
  = Ok (mkTensor [2; 1; 2; 1] [10; 20; 11; 21]).
Proof. reflexivity. Qed.

Example empty_unit_raises :
  TransformerUnit.forward (TransformerUnit.init 0 2 1 1 1 1 0 (fun _ _ => 0%R))
    q_batch2 q_batch2 q_batch2 None true gen0
  = Raise UnboundLocalError.
Proof. reflexivity. Qed.

Example training_dropout_draws :
  Dropout.forward (Dropout.mk (1 # 2) true) (mkTensor [2] [1%R; 1%R]) gen0
  = Ok (mkTensor [2] [(1 * (1 / (1 - Q2R (1 # 2))))%R; (1 * (1 / (1 - Q2R (1 # 2))))%R],
        mkGenerator (fun _ => true) 2).
Proof. reflexivity. Qed.

Example bmm_row_by_column :
  bmm (mkTensor [1; 1; 2] [1; 2]%R) (mkTensor [1; 2; 1] [3; 4]%R)
  = Ok (mkTensor [1; 1; 1] [(1 * 3 + (2 * 4 + 0))%R]).
Proof. reflexivity. Qed.

Example softmax_two_keys :
  softmax 2 (mkTensor [1; 1; 2] [0; 0]%R)
  = Ok (mkTensor [1; 1; 2]
          [(exp 0 / (exp 0 + (exp 0 + 0)))%R; (exp 0 / (exp 0 + (exp 0 + 0)))%R]).
Proof. reflexivity. Qed.

Example single_masked_key_weight :
  ScaledDotProductAttention.weights sdpa_one q_one q_one (Some mask_one)
  = Ok (mkTensor [1; 1; 1]
          [(exp ScaledDotProductAttention.neg_1e9
            / (exp ScaledDotProductAttention.neg_1e9 + 0))%R]).
Proof. reflexivity. Qed.

Example mask_batch_two_heads_raises :
  MultiHeadAttention.forward mha_two_heads q_batch2 q_batch2 q_batch2
    (Some mask_batch2) gen0
  = Raise RuntimeError.
Proof. reflexivity. Qed.

Example linear_two_features :
  Linear.forward
    (Linear.mk (mkTensor [1; 2] [5; 7]%R) (mkTensor [1] [1]%R))
    (mkTensor [1; 1; 2] [2; 3]%R)
  = Ok (mkTensor [1; 1; 1] [(2 * 5 + (3 * 7 + 0) + 1)%R]).
Proof. reflexivity. Qed.

(** * Further properties of the modules *)

(** ** Entries of the element-wise and affine operators *)



Lemma add_eq x y s :
  tshape x = s -> tshape y = s ->
  add x y
  = Ok (tabulate s (fun idx => (rget x (bcast_index s idx)
                                + rget y (bcast_index s idx))%R)).
Proof.
  intros Hx Hy. unfold add. rewrite Hx, Hy, broadcast_shapes_same. reflexivity.
Qed.

Lemma LayerNorm_eq d m x a b :
  LayerNorm_arch d m -> tshape x = [a; b; d] ->
  LayerNorm.forward m x
  = Ok (tabulate [a; b; d]
          (fun idx =>
             let pre := removelast idx in
             let j := List.last idx 0 in
             let n := INR d in
             let mean := (sum_n (fun c => rget x (pre ++ [c])) d / n)%R in
             let var :=
               (sum_n (fun c => (rget x (pre ++ [c]) - mean)
                                * (rget x (pre ++ [c]) - mean)) d / n)%R in
             ((rget x idx - mean) / sqrt (var + LayerNorm.eps m)
              * rget (LayerNorm.weight m) [j] + rget (LayerNorm.bias m) [j])%R)).
Proof.
  intros Hm Hx. unfold LayerNorm.forward, LayerNorm_arch in *.
  rewrite Hx, Hm. simpl. rewrite Nat.eqb_refl. reflexivity.
Qed.





Lemma add_entry x y z s idx :
  tshape x = s -> tshape y = s -> add x y = Ok z -> in_bounds s idx ->
  rget z idx = (rget x idx + rget y idx)%R.
Proof.
  intros Hx Hy Hz Hin. rewrite (add_eq x y s Hx Hy) in Hz.
  inversion Hz; subst z. unfold rget at 1.
  rewrite get_tabulate by assumption.
  rewrite bcast_index_same by assumption. reflexivity.
Qed.

(** ** PositionwiseFeedForward, position by position *)








(** ** A convolution of width 1 is a dense layer on every position *)

Lemma Linear_eq i o l x a b :
  Linear_arch i o l -> tshape x = [a; b; i] ->
  Linear.forward l x
  = Ok (tabulate [a; b; o]
          (fun idx =>
             let pre := removelast idx in
             let j := List.last idx 0 in
             (sum_n (fun c => rget x (pre ++ [c]) * rget (Linear.weight l) [j; c]) i
              + rget (Linear.bias l) [j])%R)).
Proof.
  intros [Hw Hb] Hx. unfold Linear.forward. rewrite Hw, Hb, Hx. simpl.
  rewrite !Nat.eqb_refl. reflexivity.
Qed.



(** ** Attention weights as a probability distribution *)

Open Scope R_scope.




Close Scope R_scope.


(** The inner attention with dropout disabled, entry by entry. *)
Lemma SDPA_eval_entries self B Lq Lk Dk Dv q k v mask g :
  tshape q = [B; Lq; Dk] -> tshape k = [B; Lk; Dk] -> tshape v = [B; Lk; Dv] ->
  mask_fits [B; Lq; Lk] mask -> SDPA_no_dropout self ->
  exists s attn out,
    ScaledDotProductAttention.scores self q k mask = Ok s
    /\ tshape s = [B; Lq; Lk]
    /\ softmax 2 s = Ok attn
    /\ ScaledDotProductAttention.weights self q k mask = Ok attn
    /\ ScaledDotProductAttention.forward self q k v mask g = Ok ((out, attn), g)
    /\ tshape attn = [B; Lq; Lk] /\ tshape out = [B; Lq; Dv]
    /\ forall b i j, b < B -> i < Lq -> j < Dv ->
         rget out [b; i; j]
         = sum_n (fun l => rget attn [b; i; l] * rget v [b; l; j])%R Lk.
Proof.
  intros Hq Hk Hv Hm Hd.
  destruct (weights_ok self B Lq Lk Dk q k mask Hq Hk Hm)
    as (s & a & Hs & Hsh & Hsoft & Hw & _ & Ha).
  exists s, a. eexists. split; [exact Hs|]. split; [exact Hsh|].
  split; [exact Hsoft|]. split; [exact Hw|].
  split; [apply (SDPA_forward_ok self B Lq Lk Dv q k v mask a g); assumption|].
  split; [exact Ha|]. split; [reflexivity|].
  intros b i j Hb Hi Hj. unfold rget at 1.
  rewrite get_tabulate by (simpl; tauto). reflexivity.
Qed.








(** ** A mask without any True entry *)

Lemma masked_fill_all_false t m v :
  wf t -> tshape m = tshape t -> all_false m -> masked_fill t m v = Ok t.
Proof.
  intros Hwf Hm Hall. unfold masked_fill. rewrite Hm, broadcast_shapes_same.
  f_equal. apply (tensor_ext R 0%R); [apply tabulate_wf | exact Hwf | reflexivity |].
  intros idx Hin. simpl in Hin. rewrite get_tabulate by exact Hin.
  rewrite !bcast_index_same by exact Hin.
  rewrite Hall by (rewrite Hm; exact Hin). reflexivity.
Qed.

Lemma SDPA_all_false_mask self B Lq Lk Dk q k v m g :
  tshape q = [B; Lq; Dk] -> tshape k = [B; Lk; Dk] ->
  tshape m = [B; Lq; Lk] -> all_false m ->
  ScaledDotProductAttention.forward self q k v (Some m) g
  = ScaledDotProductAttention.forward self q k v None g.
Proof.
  intros Hq Hk Hm Hall.
  unfold ScaledDotProductAttention.forward, ScaledDotProductAttention.weights.
  rewrite !(scores_unfold self B Lq Lk Dk q k Hq Hk).
  rewrite masked_fill_all_false;
    [reflexivity | apply qk_wf | rewrite Hm; reflexivity | exact Hall].
Qed.

Lemma MHA_all_false_mask n_head d_model d_k d_v self q k v m B Lq Lk g :
  MHA_arch n_head d_model d_k d_v self ->
  tshape q = [B; Lq; d_model] -> tshape k = [B; Lk; d_model] ->
  tshape v = [B; Lk; d_model] ->
  1 <= Lq -> 1 <= Lk -> 1 <= d_k -> 1 <= d_v ->
  tshape m = [n_head * B; Lq; Lk] -> all_false m ->
  MultiHeadAttention.forward self q k v (Some m) g
  = MultiHeadAttention.forward self q k v None g.
Proof.
  intros Harch Hq Hk Hv HLq HLk Hk1 Hv1 Hm Hall.
  destruct (MHA_forward_unfold _ _ _ _ self q k v B Lq Lk
              Harch Hq Hk Hv HLq HLk Hk1 Hv1)
    as (qh & kh & vh & Sq & Sk & Sv & Hfw).
  rewrite !Hfw. unfold bind at 1 7.
  rewrite (SDPA_all_false_mask _ _ Lq Lk d_k qh kh vh m g Sq Sk Hm Hall).
  reflexivity.
Qed.

Lemma for_layers_ext stack q k v m1 m2 :
  (forall l, In l stack ->
     forall g, EncoderLayer.forward l q k v m1 g = EncoderLayer.forward l q k v m2 g) ->
  forall vars g,
    TransformerUnit.for_layers stack q k v m1 vars g
    = TransformerUnit.for_layers stack q k v m2 vars g.
Proof.
  induction stack as [|l rest IH]; intros H vars g; simpl; [reflexivity|].
  unfold bind. rewrite (H l (or_introl eq_refl) g).
  destruct (EncoderLayer.forward l q k v m2 g) as [[r g1]|e]; [|reflexivity].
  apply IH. intros l' Hin. apply H. right. exact Hin.
Qed.

(** X6: a mask of the head-expanded shape (n_head*B, Lq, Lk) with no True
    entry has no effect: [MultiHeadAttention.forward], every layer and
    [TransformerUnit.forward] behave exactly as with [mask=None], in
    training as in evaluation mode. *)
Theorem all_false_mask_is_no_mask n_layers n_head d_k d_v d_model d_inner
    mha u query key value m return_attns B L Lk g :
  MHA_arch n_head d_model d_k d_v mha ->
  Unit_arch n_layers n_head d_k d_v d_model d_inner u ->
  tshape query = [B; L; d_model] -> tshape key = [B; Lk; d_model] ->
  tshape value = [B; Lk; d_model] ->
  1 <= L -> 1 <= Lk -> 1 <= d_k -> 1 <= d_v ->
  tshape m = [n_head * B; L; Lk] -> all_false m ->
  MultiHeadAttention.forward mha query key value (Some m) g
  = MultiHeadAttention.forward mha query key value None g
  /\ TransformerUnit.forward u query key value (Some m) return_attns g
     = TransformerUnit.forward u query key value None return_attns g.
Proof.
  intros Ha (_ & Hstack & _) Hq Hk Hv HL HLk Hk1 Hv1 Hm Hall. split.
  - eapply MHA_all_false_mask; eassumption.
  - unfold TransformerUnit.forward. unfold bind at 1 3.
    rewrite (for_layers_ext (TransformerUnit.layer_stack u) query key value
               (Some m) None); [reflexivity|].
    intros l Hin g0. rewrite Forall_forall in Hstack.
    destruct (Hstack l Hin) as [Hmha _].
    unfold EncoderLayer.forward. unfold bind at 1 3.
    rewrite (MHA_all_false_mask _ _ _ _ _ query key value m B L Lk g0
               Hmha Hq Hk Hv HL HLk Hk1 Hv1 Hm Hall).
    reflexivity.
Qed.

Lemma mask_batch4_all_false :
  all_false (repeat_heads 2 mask_batch2).
Proof.
  intros idx Hin. change (tshape (repeat_heads 2 mask_batch2)) with [4; 1; 1] in Hin.
  apply in_bounds3 in Hin as (a & i & j & -> & Ha & Hi & Hj).
  assert (i = 0) by lia. assert (j = 0) by lia. subst.
  destruct a as [|[|[|[|a]]]]; try reflexivity. lia.
Qed.

Lemma all_false_mask_is_no_mask_witness :
  MHA_arch 2 1 1 1 mha_two_heads
  /\ Unit_arch 2 2 1 1 1 1 unit_two_layers
  /\ tshape q_batch2 = [2; 1; 1]
  /\ tshape (repeat_heads 2 mask_batch2) = [2 * 2; 1; 1]
  /\ all_false (repeat_heads 2 mask_batch2)
  /\ MultiHeadAttention.forward mha_two_heads q_batch2 q_batch2 q_batch2
       (Some (repeat_heads 2 mask_batch2)) gen0
     = MultiHeadAttention.forward mha_two_heads q_batch2 q_batch2 q_batch2 None gen0
  /\ TransformerUnit.forward unit_two_layers q_batch2 q_batch2 q_batch2
       (Some (repeat_heads 2 mask_batch2)) false gen0
     = TransformerUnit.forward unit_two_layers q_batch2 q_batch2 q_batch2
         None false gen0.
Proof.
  assert (Ha : MHA_arch 2 1 1 1 mha_two_heads) by (apply MHA_init_arch).
  assert (Hu : Unit_arch 2 2 1 1 1 1 unit_two_layers) by (apply Unit_init_arch).
  split; [exact Ha|]. split; [exact Hu|]. split; [reflexivity|].
  split; [reflexivity|]. split; [exact mask_batch4_all_false|].
  exact (all_false_mask_is_no_mask 2 2 1 1 1 1 mha_two_heads unit_two_layers
           q_batch2 q_batch2 q_batch2 (repeat_heads 2 mask_batch2) false 2 1 1 gen0
           Ha Hu eq_refl eq_refl eq_refl (le_n 1) (le_n 1) (le_n 1) (le_n 1)
           eq_refl mask_batch4_all_false).
Defined.

(** ** Keys at suppressed positions *)

Lemma scores_masked_keys self B Lq Lk Dk q k k' m :
  tshape q = [B; Lq; Dk] -> tshape k = [B; Lk; Dk] -> tshape k' = [B; Lk; Dk] ->
  tshape m = [B; Lq; Lk] -> differ_only_where_masked B Lq Lk Dk m k k' ->
  ScaledDotProductAttention.scores self q k (Some m)
  = ScaledDotProductAttention.scores self q k' (Some m).
Proof.
  intros Hq Hk Hk' Hm Hdiff.
  rewrite (scores_unfold self B Lq Lk Dk q k Hq Hk).
  rewrite (scores_unfold self B Lq Lk Dk q k' Hq Hk').
  unfold masked_fill. simpl tshape. rewrite Hm, broadcast_shapes_same.
  f_equal. apply tabulate_ext. intros idx Hin.
  apply in_bounds3 in Hin as (b & i & j & -> & Hb & Hi & Hj).
  rewrite !bcast_index_same by (simpl; tauto).
  destruct (get false m [b; i; j]) eqn:Hmask; [reflexivity|].
  rewrite (qk_entry self B Lq Lk Dk q k b i j Hb Hi Hj).
  rewrite (qk_entry self B Lq Lk Dk q k' b i j Hb Hi Hj).
  destruct (Hdiff b j Hb Hj) as [Hall | Heq].
  - rewrite (Hall i Hi) in Hmask. discriminate.
  - f_equal. apply sum_n_ext. intros c Hc. rewrite (Heq c Hc). reflexivity.
Qed.

(** X7: the content of the key at positions that the mask suppresses for
    every query (padding) has no influence at all: two keys that differ only
    there give the same scores, the same attention weights and the same
    result of [forward]. *)
Theorem masked_keys_have_no_influence self B Lq Lk Dk q k k' v m g :
  tshape q = [B; Lq; Dk] -> tshape k = [B; Lk; Dk] -> tshape k' = [B; Lk; Dk] ->
  tshape m = [B; Lq; Lk] -> differ_only_where_masked B Lq Lk Dk m k k' ->
  ScaledDotProductAttention.weights self q k (Some m)
  = ScaledDotProductAttention.weights self q k' (Some m)
  /\ ScaledDotProductAttention.forward self q k v (Some m) g
     = ScaledDotProductAttention.forward self q k' v (Some m) g.
Proof.
  intros Hq Hk Hk' Hm Hdiff.
  pose proof (scores_masked_keys self B Lq Lk Dk q k k' m Hq Hk Hk' Hm Hdiff) as E.
  unfold ScaledDotProductAttention.forward, ScaledDotProductAttention.weights.
  rewrite E. split; reflexivity.
Qed.

Lemma masked_keys_have_no_influence_witness :
  tshape q_one = [1; 1; 1] /\ tshape k_other = [1; 1; 1]
  /\ tshape mask_one = [1; 1; 1]
  /\ differ_only_where_masked 1 1 1 1 mask_one q_one k_other
  /\ ScaledDotProductAttention.weights sdpa_one q_one q_one (Some mask_one)
     = ScaledDotProductAttention.weights sdpa_one q_one k_other (Some mask_one)
  /\ ScaledDotProductAttention.forward sdpa_one q_one q_one q_one (Some mask_one) gen0
     = ScaledDotProductAttention.forward sdpa_one q_one k_other q_one
         (Some mask_one) gen0.
Proof.
  assert (Hd : differ_only_where_masked 1 1 1 1 mask_one q_one k_other).
  { intros b j Hb Hj. left. intros i Hi.
    assert (b = 0) by lia. assert (j = 0) by lia. assert (i = 0) by lia.
    subst. reflexivity. }
  split; [reflexivity|]. split; [reflexivity|]. split; [reflexivity|].
  split; [exact Hd|].
  exact (masked_keys_have_no_influence sdpa_one 1 1 1 1 q_one q_one k_other
           q_one mask_one gen0 eq_refl eq_refl eq_refl eq_refl Hd).
Defined.

(** ** The attention weights returned by a layer *)




(** ** Inputs that make [forward] raise *)

Lemma size3_cases {A} (t : Tensor A) :
  (exists a b c, tshape t = [a; b; c] /\ size3 t = Ok (a, b, c))
  \/ (length (tshape t) <> 3 /\ size3 t = Raise ValueError).
Proof.
  unfold size3. destruct (tshape t) as [|a [|b [|c [|d s]]]]; simpl;
    try (right; split; [lia | reflexivity]).
  left. eauto.
Qed.

Lemma MHA_rank_error self q k v mask g :
  length (tshape q) <> 3 \/ length (tshape k) <> 3 \/ length (tshape v) <> 3 ->
  MultiHeadAttention.forward self q k v mask g = Raise ValueError.
Proof.
  intros H. unfold MultiHeadAttention.forward. cbv zeta.
  destruct (size3_cases q) as [(a & b & c & Hq & Eq)|[Hq Eq]];
    rewrite Eq, bind_lift; [|reflexivity].
  destruct (size3_cases k) as [(a' & b' & c' & Hk & Ek)|[Hk Ek]];
    rewrite Ek, bind_lift; [|reflexivity].
  destruct (size3_cases v) as [(a'' & b'' & c'' & Hv & Ev)|[Hv Ev]];
    rewrite Ev, bind_lift; [|reflexivity].
  rewrite Hq, Hk, Hv in H. simpl in H. lia.
Qed.

(** X9: the three [size()] unpackings at the head of
    [MultiHeadAttention.forward] accept tensors of rank 3 only: if query, key
    or value has another rank, the attention, every layer and the whole unit
    (when it has a layer) raise ValueError, before any projection is
    computed and whatever the weights and the mask. *)
Theorem rank_other_than_three_raises mha layer u query key value mask
    return_attns g :
  length (tshape query) <> 3 \/ length (tshape key) <> 3
  \/ length (tshape value) <> 3 ->
  MultiHeadAttention.forward mha query key value mask g = Raise ValueError
  /\ EncoderLayer.forward layer query key value mask g = Raise ValueError
  /\ (TransformerUnit.layer_stack u <> [] ->
      TransformerUnit.forward u query key value mask return_attns g
      = Raise ValueError).
Proof.
  intros H. split; [apply MHA_rank_error; exact H|]. split.
  - unfold EncoderLayer.forward. unfold bind at 1.
    rewrite (MHA_rank_error _ query key value mask g H). reflexivity.
  - intros Hne. unfold TransformerUnit.forward.
    destruct (TransformerUnit.layer_stack u) as [|l rest]; [congruence|].
    simpl. unfold bind at 1. unfold bind at 1.
    unfold EncoderLayer.forward. unfold bind at 1.
    rewrite (MHA_rank_error _ query key value mask g H). reflexivity.
Qed.

Lemma rank_other_than_three_raises_witness :
  (length (tshape (mkTensor [2; 1] [0%R; 0%R])) <> 3
   \/ length (tshape q_batch2) <> 3 \/ length (tshape q_batch2) <> 3)
  /\ MultiHeadAttention.forward mha_two_heads (mkTensor [2; 1] [0%R; 0%R])
       q_batch2 q_batch2 None gen0 = Raise ValueError
  /\ EncoderLayer.forward (EncoderLayer.init 1 1 2 1 1 0 (fun _ => 0%R))
       (mkTensor [2; 1] [0%R; 0%R]) q_batch2 q_batch2 None gen0
     = Raise ValueError
  /\ (TransformerUnit.layer_stack unit_two_layers <> [] ->
      TransformerUnit.forward unit_two_layers (mkTensor [2; 1] [0%R; 0%R])
        q_batch2 q_batch2 None false gen0
      = Raise ValueError).
Proof.
  assert (H : length (tshape (mkTensor [2; 1] [0%R; 0%R])) <> 3
              \/ length (tshape q_batch2) <> 3 \/ length (tshape q_batch2) <> 3)
    by (left; simpl; lia).
  split; [exact H|].
  exact (rank_other_than_three_raises mha_two_heads
           (EncoderLayer.init 1 1 2 1 1 0 (fun _ => 0%R)) unit_two_layers
           (mkTensor [2; 1] [0%R; 0%R]) q_batch2 q_batch2 None false gen0 H).
Defined.

Lemma view_explicit_fail {A} dims (t : Tensor A) :
  numel (tshape t) <> numel dims ->
  view (map D dims) t = Raise RuntimeError.
Proof.
  intros H. unfold view, infer_size.
  rewrite filter_infer_D, numel_map_D, map_extent_D. simpl.
  destruct (Nat.eqb_spec (numel (tshape t)) (numel dims)); [contradiction|].
  reflexivity.
Qed.

(** X10: the batch size used for all three head views is the one of the
    value (the name [sz_b] is rebound by key and value): a query whose batch
    size differs from the value's makes the first view fail, so
    [MultiHeadAttention.forward] raises RuntimeError. *)
Theorem query_batch_must_match_value n_head d_model d_k d_v self
    q k v mask Bq Bk Bv Lq Lk Lv g :
  MHA_arch n_head d_model d_k d_v self ->
  tshape q = [Bq; Lq; d_model] -> tshape k = [Bk; Lk; d_model] ->
  tshape v = [Bv; Lv; d_model] ->
  1 <= Lq -> 1 <= n_head -> 1 <= d_k -> Bq <> Bv ->
  MultiHeadAttention.forward self q k v mask g = Raise RuntimeError.
Proof.
  intros (Hn & Hdk & Hdv & Hwq & _) Hq Hk Hv HLq Hn1 Hk1 Hne.
  unfold MultiHeadAttention.forward. rewrite Hn, Hdk, Hdv. cbv zeta.
  rewrite (size3_ok q _ _ _ Hq), bind_lift.
  rewrite (size3_ok k _ _ _ Hk), bind_lift.
  rewrite (size3_ok v _ _ _ Hv), bind_lift.
  destruct (Linear_ok _ _ _ q Bq Lq Hwq Hq) as (y & Ey & Sy).
  rewrite Ey. simpl rbind.
  assert (E : view [D Bv; D Lq; D n_head; D d_k] y = Raise RuntimeError).
  { apply (view_explicit_fail [Bv; Lq; n_head; d_k] y).
    rewrite Sy. simpl. intros E.
    assert (Hpos : 0 < Lq * (n_head * d_k)) by nia.
    apply Hne. nia. }
  rewrite E. reflexivity.
Qed.

Lemma query_batch_must_match_value_witness :
  MHA_arch 2 1 1 1 mha_two_heads
  /\ tshape q_one = [1; 1; 1] /\ tshape q_batch2 = [2; 1; 1]
  /\ 1 <> 2
  /\ MultiHeadAttention.forward mha_two_heads q_one q_batch2 q_batch2 None gen0
     = Raise RuntimeError.
Proof.
  assert (Ha : MHA_arch 2 1 1 1 mha_two_heads) by (apply MHA_init_arch).
  split; [exact Ha|]. split; [reflexivity|]. split; [reflexivity|].
  split; [lia|].
  exact (query_batch_must_match_value 2 1 1 1 mha_two_heads q_one q_batch2
           q_batch2 None 1 2 2 1 1 1 gen0 Ha eq_refl eq_refl eq_refl
           (le_n 1) (le_S 1 1 (le_n 1)) (le_n 1) ltac:(lia)).
Defined.

(** The head tensors when key and value lengths may differ. *)
Lemma MHA_forward_unfold_kv n_head d_model d_k d_v self q k v B Lq Lk Lv :
  MHA_arch n_head d_model d_k d_v self ->
  tshape q = [B; Lq; d_model] -> tshape k = [B; Lk; d_model] ->
  tshape v = [B; Lv; d_model] ->
  1 <= Lq -> 1 <= Lk -> 1 <= Lv -> 1 <= d_k -> 1 <= d_v ->
  exists qh kh vh,
    tshape qh = [n_head * B; Lq; d_k]
    /\ tshape kh = [n_head * B; Lk; d_k]
    /\ tshape vh = [n_head * B; Lv; d_v]
    /\ forall mask g,
         MultiHeadAttention.forward self q k v mask g
         = ('(output, attn) <-
              ScaledDotProductAttention.forward
                (MultiHeadAttention.attention self) qh kh vh mask ;;
            output <- lift (MultiHeadAttention.merge_heads 0%R n_head B Lq d_v output) ;;
            output <- lift (Linear.forward (MultiHeadAttention.fc self) output) ;;
            output <- Dropout.forward (MultiHeadAttention.dropout self) output ;;
            output <- lift (rbind (add output q)
                                  (LayerNorm.forward
                                     (MultiHeadAttention.layer_norm self))) ;;
            ret (output, attn)) g.
Proof.
  intros (Hn & Hdk & Hdv & Hwq & Hwk & Hwv & Hln & Hfc)
         Hq Hk Hv HLq HLk HLv Hk1 Hv1.
  destruct (project_heads_ok _ _ _ _ q B Lq Hwq Hq) as (q4 & Eq4 & Sq4).
  destruct (project_heads_ok _ _ _ _ k B Lk Hwk Hk) as (k4 & Ek4 & Sk4).
  destruct (project_heads_ok _ _ _ _ v B Lv Hwv Hv) as (v4 & Ev4 & Sv4).
  destruct (heads_first_ok q4 _ _ _ _ Sq4 HLq Hk1) as (qh & Eqh & Sqh).
  destruct (heads_first_ok k4 _ _ _ _ Sk4 HLk Hk1) as (kh & Ekh & Skh).
  destruct (heads_first_ok v4 _ _ _ _ Sv4 HLv Hv1) as (vh & Evh & Svh).
  exists qh, kh, vh. repeat split; try assumption.
  intros mask g. unfold MultiHeadAttention.forward.
  rewrite Hn, Hdk, Hdv. cbv zeta.
  rewrite (size3_ok q _ _ _ Hq), bind_lift.
  rewrite (size3_ok k _ _ _ Hk), bind_lift.
  rewrite (size3_ok v _ _ _ Hv), bind_lift.
  rewrite Eq4, bind_lift, Ek4, bind_lift, Ev4, bind_lift.
  rewrite Eqh, bind_lift, Ekh, bind_lift, Evh, bind_lift.
  reflexivity.
Qed.

(** X11: key and value must have the same sequence length: when they differ
    (all other shapes being valid), the product of the attention weights
    (n_head*B, Lq, Lk) with the values (n_head*B, Lv, d_v) fails and
    [MultiHeadAttention.forward] raises RuntimeError. *)
Theorem key_and_value_lengths_must_match n_head d_model d_k d_v self
    q k v mask B Lq Lk Lv g :
  MHA_arch n_head d_model d_k d_v self ->
  tshape q = [B; Lq; d_model] -> tshape k = [B; Lk; d_model] ->
  tshape v = [B; Lv; d_model] ->
  1 <= Lq -> 1 <= Lk -> 1 <= Lv -> 1 <= d_k -> 1 <= d_v ->
  mask_fits [n_head * B; Lq; Lk] mask -> Lk <> Lv ->
  MultiHeadAttention.forward self q k v mask g = Raise RuntimeError.
Proof.
  intros Harch Hq Hk Hv HLq HLk HLv Hk1 Hv1 Hm Hne.
  destruct (MHA_forward_unfold_kv _ _ _ _ self q k v B Lq Lk Lv
              Harch Hq Hk Hv HLq HLk HLv Hk1 Hv1)
    as (qh & kh & vh & Sq & Sk & Sv & Hfw).
  rewrite Hfw. unfold bind at 1.
  destruct (weights_ok (MultiHeadAttention.attention self)
              (n_head * B) Lq Lk d_k qh kh mask Sq Sk Hm)
    as (s & w & _ & _ & _ & Hw & _ & Hsh).
  unfold ScaledDotProductAttention.forward. rewrite Hw, bind_lift.
  unfold bind at 1.
  destruct (Dropout_ok (ScaledDotProductAttention.dropout
                          (MultiHeadAttention.attention self)) w g)
    as (w' & g' & Ed & Sd).
  rewrite Ed. rewrite Hsh in Sd.
  assert (E : bmm w' vh = Raise RuntimeError).
  { unfold bmm. rewrite Sd, Sv, Nat.eqb_refl.
    destruct (Nat.eqb_spec Lk Lv); [contradiction | reflexivity]. }
  rewrite E. reflexivity.
Qed.

Lemma key_and_value_lengths_must_match_witness :
  MHA_arch 2 1 1 1 mha_two_heads
  /\ tshape q_batch2 = [2; 1; 1]
  /\ tshape (mkTensor [2; 2; 1] [0%R; 0%R; 0%R; 0%R]) = [2; 2; 1]
  /\ mask_fits [2 * 2; 1; 1] None /\ 1 <> 2
  /\ MultiHeadAttention.forward mha_two_heads q_batch2 q_batch2
       (mkTensor [2; 2; 1] [0%R; 0%R; 0%R; 0%R]) None gen0
     = Raise RuntimeError.
Proof.
  assert (Ha : MHA_arch 2 1 1 1 mha_two_heads) by (apply MHA_init_arch).
  split; [exact Ha|]. split; [reflexivity|]. split; [reflexivity|].
  split; [exact I|]. split; [lia|].
  exact (key_and_value_lengths_must_match 2 1 1 1 mha_two_heads q_batch2 q_batch2
           (mkTensor [2; 2; 1] [0%R; 0%R; 0%R; 0%R]) None 2 1 1 2 gen0
           Ha eq_refl eq_refl eq_refl (le_n 1) (le_n 1) (le_S 1 1 (le_n 1))
           (le_n 1) (le_n 1) I ltac:(lia)).
Defined.

Lemma view_infer_first_ambiguous {A} a b (t : Tensor A) :
  a * b = 0 -> view [Infer; D a; D b] t = Raise RuntimeError.
Proof.
  intros H. unfold view, infer_size.
  cbn [filter is_infer length map dim_extent numel fold_right Nat.ltb Nat.leb Nat.eqb].
  replace (1 * (a * (b * 1))) with 0 by (rewrite Nat.mul_1_r; lia).
  destruct (numel (tshape t) =? 0); reflexivity.
Qed.

Lemma view_infer_last_ambiguous {A} a b (t : Tensor A) :
  a * b = 0 -> view [D a; D b; Infer] t = Raise RuntimeError.
Proof.
  intros H. unfold view, infer_size.
  cbn [filter is_infer length map dim_extent numel fold_right Nat.ltb Nat.leb Nat.eqb].
  replace (a * (b * (1 * 1))) with 0 by (rewrite Nat.mul_1_r; lia).
  destruct (numel (tshape t) =? 0); reflexivity.
Qed.

Lemma MHA_empty_query n_head d_model d_k d_v self q k v mask B Lk Lv g :
  MHA_arch n_head d_model d_k d_v self ->
  tshape q = [B; 0; d_model] -> tshape k = [B; Lk; d_model] ->
  tshape v = [B; Lv; d_model] ->
  MultiHeadAttention.forward self q k v mask g = Raise RuntimeError.
Proof.
  intros (Hn & Hdk & Hdv & Hwq & Hwk & Hwv & Hln & Hfc) Hq Hk Hv.
  destruct (project_heads_ok _ _ _ _ q B 0 Hwq Hq) as (q4 & Eq4 & Sq4).
  destruct (project_heads_ok _ _ _ _ k B Lk Hwk Hk) as (k4 & Ek4 & Sk4).
  destruct (project_heads_ok _ _ _ _ v B Lv Hwv Hv) as (v4 & Ev4 & Sv4).
  unfold MultiHeadAttention.forward. rewrite Hn, Hdk, Hdv. cbv zeta.
  rewrite (size3_ok q _ _ _ Hq), bind_lift.
  rewrite (size3_ok k _ _ _ Hk), bind_lift.
  rewrite (size3_ok v _ _ _ Hv), bind_lift.
  rewrite Eq4, bind_lift, Ek4, bind_lift, Ev4, bind_lift.
  assert (E : rbind (permute 0%R [2; 0; 1; 3] q4) (view [Infer; D 0; D d_k])
              = Raise RuntimeError).
  { unfold permute. rewrite Sq4. simpl is_perm. cbv iota. simpl rbind.
    apply view_infer_first_ambiguous. reflexivity. }
  rewrite E. reflexivity.
Qed.

Lemma MHA_empty_batch n_head d_model d_k d_v self q k v mask Lq Lk g :
  MHA_arch n_head d_model d_k d_v self ->
  tshape q = [0; Lq; d_model] -> tshape k = [0; Lk; d_model] ->
  tshape v = [0; Lk; d_model] ->
  1 <= Lq -> 1 <= Lk -> 1 <= d_k -> 1 <= d_v ->
  mask_fits [n_head * 0; Lq; Lk] mask ->
  MultiHeadAttention.forward self q k v mask g = Raise RuntimeError.
Proof.
  intros Harch Hq Hk Hv HLq HLk Hk1 Hv1 Hm.
  destruct (MHA_forward_unfold _ _ _ _ self q k v 0 Lq Lk
              Harch Hq Hk Hv HLq HLk Hk1 Hv1)
    as (qh & kh & vh & Sq & Sk & Sv & Hfw).
  rewrite Hfw. clear Hfw.
  destruct (SDPA_forward_shape (MultiHeadAttention.attention self)
              _ _ _ _ _ qh kh vh mask g Sq Sk Sv Hm)
    as (o & attn & g1 & Es & So & Sa).
  unfold bind at 1. rewrite Es. cbv beta iota zeta.
  assert (E : MultiHeadAttention.merge_heads 0%R n_head 0 Lq d_v o
              = Raise RuntimeError).
  { unfold MultiHeadAttention.merge_heads.
    rewrite (view_explicit [n_head; 0; Lq; d_v]) by (rewrite So; simpl; ring).
    simpl rbind. unfold permute. simpl tshape. simpl is_perm. cbv iota.
    simpl rbind. apply view_infer_last_ambiguous. reflexivity. }
  rewrite E. reflexivity.
Qed.

(** X12: degenerate inputs are rejected, not passed through: with an empty
    query sequence the view (-1, len_q, d_k) is ambiguous, and with an empty
    batch the view (sz_b, len_q, -1) is, so [MultiHeadAttention.forward]
    raises RuntimeError in both cases although every other shape is valid. *)
Theorem empty_query_or_batch_raises n_head d_model d_k d_v self
    q k v mask B Lq Lk g :
  MHA_arch n_head d_model d_k d_v self ->
  tshape q = [B; Lq; d_model] -> tshape k = [B; Lk; d_model] ->
  tshape v = [B; Lk; d_model] ->
  1 <= Lk -> 1 <= d_k -> 1 <= d_v ->
  mask_fits [n_head * B; Lq; Lk] mask ->
  B = 0 \/ Lq = 0 ->
  MultiHeadAttention.forward self q k v mask g = Raise RuntimeError.
Proof.
  intros Harch Hq Hk Hv HLk Hk1 Hv1 Hm Hempty.
  destruct (Nat.eq_dec Lq 0) as [-> | HLq].
  - eapply MHA_empty_query; eassumption.
  - destruct Hempty as [-> | ->]; [|contradiction].
    eapply MHA_empty_batch; try eassumption. lia.
Qed.

Lemma empty_query_or_batch_raises_witness :
  MHA_arch 2 1 1 1 mha_two_heads
  /\ tshape (mkTensor [0; 1; 1] (@nil R)) = [0; 1; 1]
  /\ mask_fits [2 * 0; 1; 1] None
  /\ (0 = 0 \/ 1 = 0)
  /\ MultiHeadAttention.forward mha_two_heads (mkTensor [0; 1; 1] (@nil R))
       (mkTensor [0; 1; 1] (@nil R)) (mkTensor [0; 1; 1] (@nil R)) None gen0
     = Raise RuntimeError.
Proof.
  assert (Ha : MHA_arch 2 1 1 1 mha_two_heads) by (apply MHA_init_arch).
  split; [exact Ha|]. split; [reflexivity|]. split; [exact I|].
  split; [left; reflexivity|].
  exact (empty_query_or_batch_raises 2 1 1 1 mha_two_heads
           (mkTensor [0; 1; 1] (@nil R)) (mkTensor [0; 1; 1] (@nil R))
           (mkTensor [0; 1; 1] (@nil R)) None 0 1 1 gen0
           Ha eq_refl eq_refl eq_refl (le_n 1) (le_n 1) (le_n 1) I
           (or_introl eq_refl)).
Defined.

(** ** Random draws of a freshly constructed attention *)

Lemma Dropout_training_draws p x g :
  Qeq_bool p 0 = false -> Qeq_bool p 1 = false -> numel (tshape x) <> 0 ->
  exists y,
    Dropout.forward (Dropout.init p) x g
    = Ok (y, mkGenerator (draws g) (position g + numel (tshape x)))
    /\ tshape y = tshape x.
Proof.
  intros H0 H1 Hn. unfold Dropout.forward, Dropout.init. simpl.
  rewrite H0, H1. simpl.
  destruct (Nat.eqb_spec (numel (tshape x)) 0); [contradiction|].
  eexists. split; reflexivity.
Qed.

Lemma MHA_training_draws n_head d_model d_k d_v self p_in q k v mask B Lq Lk g :
  MHA_arch n_head d_model d_k d_v self ->
  ScaledDotProductAttention.dropout (MultiHeadAttention.attention self)
  = Dropout.init p_in ->
  Qeq_bool p_in 0 = false -> Qeq_bool p_in 1 = false ->
  dropout_disabled (MultiHeadAttention.dropout self) ->
  tshape q = [B; Lq; d_model] -> tshape k = [B; Lk; d_model] ->
  tshape v = [B; Lk; d_model] ->
  1 <= n_head -> 1 <= B -> 1 <= Lq -> 1 <= Lk -> 1 <= d_k -> 1 <= d_v ->
  mask_fits [n_head * B; Lq; Lk] mask ->
  exists out attn,
    MultiHeadAttention.forward self q k v mask g
    = Ok ((out, attn),
          mkGenerator (draws g) (position g + n_head * B * Lq * Lk)).
Proof.
  intros Harch Hin H0 H1 Hout Hq Hk Hv Hn HB HLq HLk Hk1 Hv1 Hm.
  destruct (MHA_forward_unfold _ _ _ _ self q k v B Lq Lk
              Harch Hq Hk Hv HLq HLk Hk1 Hv1)
    as (qh & kh & vh & Sq & Sk & Sv & Hfw).
  rewrite Hfw. clear Hfw.
  destruct Harch as (_ & _ & _ & _ & _ & _ & Hln & Hfc).
  destruct (weights_ok (MultiHeadAttention.attention self)
              (n_head * B) Lq Lk d_k qh kh mask Sq Sk Hm)
    as (s & w & _ & _ & _ & Hw & _ & Hsh).
  unfold bind at 1. unfold ScaledDotProductAttention.forward.
  rewrite Hw, bind_lift. unfold bind at 1. rewrite Hin.
  assert (Hnum : numel (tshape w) <> 0).
  { rewrite Hsh. simpl. nia. }
  destruct (Dropout_training_draws p_in w g H0 H1 Hnum) as (w' & Ed & Sd).
  rewrite Ed. rewrite Hsh in Sd.
  rewrite (bmm_ok w' vh (n_head * B) Lq Lk d_v Sd Sv), bind_lift.
  unfold ret. cbv beta iota zeta.
  match goal with
  | |- context [MultiHeadAttention.merge_heads _ _ _ _ _ ?t] => set (o := t)
  end.
  destruct (merge_heads_ok R 0%R n_head B Lq d_v o eq_refl HB HLq)
    as (mg & Em & _ & Sm & _).
  rewrite Em, bind_lift.
  destruct (Linear_ok _ _ _ mg B Lq Hfc Sm) as (f & Ef & Sf).
  rewrite Ef, bind_lift. unfold bind at 1.
  rewrite Dropout_disabled_forward by exact Hout.
  destruct (add_ok f q _ Sf Hq) as (z & Ez & Sz).
  rewrite Ez. simpl rbind.
  destruct (LayerNorm_ok _ _ z B Lq Hln Sz) as (y & Ey & Sy).
  rewrite Ey, bind_lift.
  exists y, w'. unfold ret. f_equal. f_equal. f_equal.
  rewrite Hsh. simpl. ring.
Qed.

(** X13: the constructor of [MultiHeadAttention] does not hand its
    [dropout] argument to the inner attention, which keeps the default 0.1:
    a module built with [dropout=0] and left in training mode still draws
    one random outcome per attention weight, n_head*B*Lq*Lk of them, at
    every call. *)
Theorem fresh_attention_still_draws n_head d_model d_k d_v values
    q k v mask B Lq Lk g :
  tshape q = [B; Lq; d_model] -> tshape k = [B; Lk; d_model] ->
  tshape v = [B; Lk; d_model] ->
  1 <= n_head -> 1 <= B -> 1 <= Lq -> 1 <= Lk -> 1 <= d_k -> 1 <= d_v ->
  mask_fits [n_head * B; Lq; Lk] mask ->
  exists out attn,
    MultiHeadAttention.forward
      (MultiHeadAttention.init n_head d_model d_k d_v 0 values) q k v mask g
    = Ok ((out, attn),
          mkGenerator (draws g) (position g + n_head * B * Lq * Lk)).
Proof.
  intros Hq Hk Hv Hn HB HLq HLk Hk1 Hv1 Hm.
  apply (MHA_training_draws n_head d_model d_k d_v
           (MultiHeadAttention.init n_head d_model d_k d_v 0 values) (1 # 10));
    try assumption; try reflexivity.
  apply MHA_init_arch.
Qed.

Lemma fresh_attention_still_draws_witness :
  tshape q_batch2 = [2; 1; 1] /\ 1 <= 2 /\ mask_fits [2 * 2; 1; 1] None
  /\ exists out attn,
       MultiHeadAttention.forward
         (MultiHeadAttention.init 2 1 1 1 0 (fun _ => 0%R))
         q_batch2 q_batch2 q_batch2 None gen0
       = Ok ((out, attn),
             mkGenerator (draws gen0) (position gen0 + 2 * 2 * 1 * 1)).
Proof.
  split; [reflexivity|]. split; [lia|]. split; [exact I|].
  exact (fresh_attention_still_draws 2 1 1 1 (fun _ => 0%R)
           q_batch2 q_batch2 q_batch2 None 2 1 1 gen0
           eq_refl eq_refl eq_refl (le_S 1 1 (le_n 1)) (le_S 1 1 (le_n 1))
           (le_n 1) (le_n 1) (le_n 1) (le_n 1) I).
Defined.

(** ** Layers before the last one *)

Lemma forward_eval_last d_model d_inner n_head d_k d_v u rest last
    q k v mask ra g :
  TransformerUnit.layer_stack u = rest ++ [last] ->
  Forall (EncoderLayer_arch d_model d_inner n_head d_k d_v) (rest ++ [last]) ->
  Forall EncoderLayer_no_dropout rest ->
  TransformerUnit.forward u q k v mask ra g
  = (r <- EncoderLayer.forward last q k v mask ;;
     enc_output <- lift (LayerNorm.forward (TransformerUnit.layer_norm u) (fst r)) ;;
     ret (TransformerUnit.Output enc_output)) g.
Proof.
  intros Hstack Harch Hnd.
  apply Forall_app in Harch as [Hrest Hlast].
  inversion Hlast as [|? ? Hlast' _]; subst.
  unfold TransformerUnit.forward. rewrite Hstack.
  unfold bind at 1. rewrite for_layers_app. unfold bind at 1.
  destruct (TransformerUnit.for_layers rest q k v mask None g)
    as [[vars g1]|e] eqn:Hloop.
  - assert (g1 = g).
    { eapply repeatable_generator; [|exact Hloop].
      apply repeatable_for_layers. assumption. }
    subst g1. simpl. unfold bind.
    destruct (EncoderLayer.forward last q k v mask g) as [[[o a] g2]|e];
      reflexivity.
  - pose proof (for_layers_raise _ _ _ _ _ _ _ _ _ _ _ _ _ _
                  Hrest Hlast' Hloop g) as Hr.
    unfold bind. rewrite Hr. reflexivity.
Qed.

(** X14: in evaluation mode the layers before the last one have no
    influence on the result: two units of one architecture with the same
    last layer and the same final normalisation return the same value (or
    raise the same exception) on every input, however many other layers
    each of them has and whatever their weights; the unit equals the one
    reduced to its last layer. *)
Theorem earlier_layers_have_no_influence d_model d_inner n_head d_k d_v
    u rest rest' last query key value mask return_attns g :
  TransformerUnit.layer_stack u = rest ++ [last] ->
  Forall (EncoderLayer_arch d_model d_inner n_head d_k d_v) (rest ++ [last]) ->
  Forall (EncoderLayer_arch d_model d_inner n_head d_k d_v) rest' ->
  Forall EncoderLayer_no_dropout rest ->
  Forall EncoderLayer_no_dropout rest' ->
  TransformerUnit.forward u query key value mask return_attns g
  = TransformerUnit.forward (with_layers u (rest' ++ [last]))
      query key value mask return_attns g
  /\ TransformerUnit.forward u query key value mask return_attns g
     = TransformerUnit.forward (with_layers u [last])
         query key value mask return_attns g.
Proof.
  intros Hstack Harch Harch' Hnd Hnd'.
  assert (Hlast : EncoderLayer_arch d_model d_inner n_head d_k d_v last).
  { apply Forall_app in Harch as [_ H]. inversion H; assumption. }
  rewrite (forward_eval_last _ _ _ _ _ u rest last query key value mask
             return_attns g Hstack Harch Hnd).
  split.
  - rewrite (forward_eval_last d_model d_inner n_head d_k d_v
               (with_layers u (rest' ++ [last]))
               rest' last query key value mask return_attns g eq_refl);
      [reflexivity | | exact Hnd'].
    apply Forall_app. split; [exact Harch' | constructor; [exact Hlast | constructor]].
  - rewrite (forward_eval_last d_model d_inner n_head d_k d_v
               (with_layers u [last])
               [] last query key value mask return_attns g eq_refl);
      [reflexivity | | constructor].
    constructor; [exact Hlast | constructor].
Qed.

Lemma earlier_layers_have_no_influence_witness :
  (exists rest last,
      TransformerUnit.layer_stack unit_eval = rest ++ [last]
      /\ Forall (EncoderLayer_arch 1 1 2 1 1) (rest ++ [last])
      /\ Forall EncoderLayer_no_dropout rest
      /\ TransformerUnit.forward unit_eval q_batch2 q_batch2 q_batch2 None false gen0
         = TransformerUnit.forward (with_layers unit_eval ([] ++ [last]))
             q_batch2 q_batch2 q_batch2 None false gen0
      /\ TransformerUnit.forward unit_eval q_batch2 q_batch2 q_batch2 None false gen0
         = TransformerUnit.forward (with_layers unit_eval [last])
             q_batch2 q_batch2 q_batch2 None false gen0).
Proof.
  set (l0 := EncoderLayer_eval (EncoderLayer.init 1 1 2 1 1 (1 # 10) (fun _ => 0%R))).
  assert (Hl : EncoderLayer_arch 1 1 2 1 1 l0).
  { unfold EncoderLayer_arch, MHA_arch, PFF_arch, Linear_arch, Conv1d_arch,
      LayerNorm_arch. simpl. tauto. }
  assert (Hd : EncoderLayer_no_dropout l0) by (repeat split).
  assert (Hstack : TransformerUnit.layer_stack unit_eval = [l0] ++ [l0])
    by reflexivity.
  assert (Harch : Forall (EncoderLayer_arch 1 1 2 1 1) ([l0] ++ [l0]))
    by (repeat constructor; exact Hl).
  assert (Hnd : Forall EncoderLayer_no_dropout [l0]) by (repeat constructor; exact Hd).
  exists [l0], l0. split; [exact Hstack|]. split; [exact Harch|].
  split; [exact Hnd|].
  exact (earlier_layers_have_no_influence 1 1 2 1 1 unit_eval [l0] [] l0
           q_batch2 q_batch2 q_batch2 None false gen0
           Hstack Harch (Forall_nil _) Hnd (Forall_nil _)).
Defined.

(** ** Rows of the final normalisation *)

Open Scope R_scope.


Close Scope R_scope.





(** ** Outcomes are decided by shapes *)

Lemma sim_size3 {A B} (t1 : Tensor A) (t2 : Tensor B) :
  same_shape t1 t2 -> sim eq (size3 t1) (size3 t2).
Proof.
  intros H. unfold size3, same_shape in *. rewrite H.
  destruct (tshape t2) as [|a [|b [|c [|d s]]]]; constructor; reflexivity.
Qed.

Lemma sim_masked_fill_shapes t1 t2 m1 m2 v1 v2 :
  same_shape t1 t2 -> tshape m1 = tshape m2 ->
  sim same_shape (masked_fill t1 m1 v1) (masked_fill t2 m2 v2).
Proof.
  intros Ht Hm. unfold masked_fill, same_shape in *. rewrite Ht, Hm.
  destruct (broadcast_shapes (tshape t2) (tshape m2)); constructor. reflexivity.
Qed.

Lemma sim_scores_shapes a1 a2 q1 q2 k1 k2 m1 m2 :
  same_shape q1 q2 -> same_shape k1 k2 -> same_mask_shape m1 m2 ->
  sim same_shape (ScaledDotProductAttention.scores a1 q1 k1 m1)
                 (ScaledDotProductAttention.scores a2 q2 k2 m2).
Proof.
  intros Hq Hk Hm. unfold ScaledDotProductAttention.scores.
  eapply sim_rbind; [apply sim_transpose; exact Hk|]. intros kt1 kt2 Hkt.
  eapply sim_rbind; [apply sim_bmm; assumption|]. intros s1 s2 Hs. cbv zeta.
  destruct m1 as [m1|], m2 as [m2|]; simpl in Hm; try contradiction.
  - apply sim_masked_fill_shapes; [apply same_shape_div_scalar; exact Hs | exact Hm].
  - constructor. apply same_shape_div_scalar. exact Hs.
Qed.

Lemma simM_SDPA_shapes a1 a2 q1 q2 k1 k2 v1 v2 m1 m2 :
  same_shape q1 q2 -> same_shape k1 k2 -> same_shape v1 v2 ->
  same_mask_shape m1 m2 ->
  simM same_shapes (ScaledDotProductAttention.forward a1 q1 k1 v1 m1)
                   (ScaledDotProductAttention.forward a2 q2 k2 v2 m2).
Proof.
  intros Hq Hk Hv Hm. unfold ScaledDotProductAttention.forward,
    ScaledDotProductAttention.weights.
  eapply simM_bind.
  { apply simM_lift. eapply sim_rbind; [apply sim_scores_shapes; assumption|].
    intros s1 s2 Hs. apply sim_softmax. exact Hs. }
  intros w1 w2 Hw.
  eapply simM_bind; [apply simM_Dropout; exact Hw|]. intros d1 d2 Hd.
  eapply simM_bind; [apply simM_lift, sim_bmm; assumption|]. intros o1 o2 Ho.
  apply simM_ret. split; assumption.
Qed.

Lemma simM_MHA_shapes n_head d_model d_k d_v s1 s2 q1 q2 k1 k2 v1 v2 m1 m2 :
  MHA_arch n_head d_model d_k d_v s1 -> MHA_arch n_head d_model d_k d_v s2 ->
  same_shape q1 q2 -> same_shape k1 k2 -> same_shape v1 v2 ->
  same_mask_shape m1 m2 ->
  simM same_shapes (MultiHeadAttention.forward s1 q1 k1 v1 m1)
                   (MultiHeadAttention.forward s2 q2 k2 v2 m2).
Proof.
  intros (Hn1 & Hk1 & Hv1 & Hq1 & Hks1 & Hvs1 & Hln1 & Hfc1)
         (Hn2 & Hk2 & Hv2 & Hq2 & Hks2 & Hvs2 & Hln2 & Hfc2) Sq Sk Sv Sm.
  unfold MultiHeadAttention.forward. rewrite Hn1, Hk1, Hv1, Hn2, Hk2, Hv2.
  cbv zeta.
  eapply simM_bind with (R := eq);
    [apply simM_lift, sim_size3; exact Sq|]. intros [[b1 lq] x1] ? <-.
  eapply simM_bind with (R := eq);
    [apply simM_lift, sim_size3; exact Sk|]. intros [[b2 lk] x2] ? <-.
  eapply simM_bind with (R := eq);
    [apply simM_lift, sim_size3; exact Sv|]. intros [[b3 lv] x3] ? <-.
  eapply simM_bind.
  { apply simM_lift. eapply sim_rbind;
      [eapply sim_Linear; [eassumption|eassumption|exact Sq]|].
    intros; apply sim_view; assumption. }
  intros q1' q2' Hq.
  eapply simM_bind.
  { apply simM_lift. eapply sim_rbind;
      [eapply sim_Linear; [eassumption|eassumption|exact Sk]|].
    intros; apply sim_view; assumption. }
  intros k1' k2' Hk.
  eapply simM_bind.
  { apply simM_lift. eapply sim_rbind;
      [eapply sim_Linear; [eassumption|eassumption|exact Sv]|].
    intros; apply sim_view; assumption. }
  intros v1' v2' Hv.
  eapply simM_bind.
  { apply simM_lift. eapply sim_rbind; [apply sim_permute; exact Hq|].
    intros; apply sim_view; assumption. }
  intros q1h q2h Hqh.
  eapply simM_bind.
  { apply simM_lift. eapply sim_rbind; [apply sim_permute; exact Hk|].
    intros; apply sim_view; assumption. }
  intros k1h k2h Hkh.
  eapply simM_bind.
  { apply simM_lift. eapply sim_rbind; [apply sim_permute; exact Hv|].
    intros; apply sim_view; assumption. }
  intros v1h v2h Hvh.
  eapply simM_bind; [apply simM_SDPA_shapes; assumption|].
  intros [o1 a1] [o2 a2] [Ho Ha]; simpl in Ho, Ha.
  eapply simM_bind; [apply simM_lift, sim_merge_heads; exact Ho|].
  intros c1 c2 Hc.
  eapply simM_bind;
    [apply simM_lift; eapply sim_Linear; [eassumption|eassumption|exact Hc]|].
  intros f1 f2 Hf.
  eapply simM_bind; [apply simM_Dropout; exact Hf|]. intros e1 e2 He.
  eapply simM_bind.
  { apply simM_lift. eapply sim_rbind; [apply sim_add; [exact He|exact Sq]|].
    intros; eapply sim_LayerNorm; eassumption. }
  intros y1 y2 Hy. apply simM_ret. split; assumption.
Qed.

Lemma simM_EncoderLayer_shapes d_model d_inner n_head d_k d_v l1 l2
    q1 q2 k1 k2 v1 v2 m1 m2 :
  EncoderLayer_arch d_model d_inner n_head d_k d_v l1 ->
  EncoderLayer_arch d_model d_inner n_head d_k d_v l2 ->
  same_shape q1 q2 -> same_shape k1 k2 -> same_shape v1 v2 ->
  same_mask_shape m1 m2 ->
  simM same_shapes (EncoderLayer.forward l1 q1 k1 v1 m1)
                   (EncoderLayer.forward l2 q2 k2 v2 m2).
Proof.
  intros [Ha1 Hp1] [Ha2 Hp2] Sq Sk Sv Sm. unfold EncoderLayer.forward.
  eapply simM_bind; [eapply simM_MHA_shapes; eassumption|].
  intros [o1 a1] [o2 a2] [Ho Ha]; simpl in Ho, Ha.
  eapply simM_bind; [eapply simM_PFF; eassumption|]. intros y1 y2 Hy.
  apply simM_ret. split; assumption.
Qed.

Lemma simM_for_layers d_model d_inner n_head d_k d_v q1 q2 k1 k2 v1 v2 m1 m2 :
  same_shape q1 q2 -> same_shape k1 k2 -> same_shape v1 v2 ->
  same_mask_shape m1 m2 ->
  forall stack1 stack2,
    Forall (EncoderLayer_arch d_model d_inner n_head d_k d_v) stack1 ->
    Forall (EncoderLayer_arch d_model d_inner n_head d_k d_v) stack2 ->
    length stack1 = length stack2 ->
    forall vars1 vars2, same_locals vars1 vars2 ->
      simM same_locals (TransformerUnit.for_layers stack1 q1 k1 v1 m1 vars1)
                       (TransformerUnit.for_layers stack2 q2 k2 v2 m2 vars2).
Proof.
  intros Sq Sk Sv Sm stack1.
  induction stack1 as [|l1 rest1 IH]; intros [|l2 rest2] H1 H2 Hlen vars1 vars2 Hvars;
    simpl in Hlen; try discriminate.
  - simpl. apply simM_ret. exact Hvars.
  - inversion H1; inversion H2; subst. simpl.
    eapply simM_bind; [eapply simM_EncoderLayer_shapes; eassumption|].
    intros r1 r2 Hr. apply IH; try assumption; try lia.
Qed.

(** X16: whether [TransformerUnit.forward] raises, which exception it
    raises, and the shape of the tensor it returns are decided by the
    architecture and by the shapes of query, key, value and mask alone: two
    units of one architecture, on inputs of the same shapes, either raise the
    same exception or return outputs of the same shape, whatever the weights,
    the entries of the inputs and of the mask, the training mode and the
    state of the generator. *)
Theorem outcome_is_decided_by_shapes n_layers n_head d_k d_v d_model d_inner
    u1 u2 q1 q2 k1 k2 v1 v2 m1 m2 ra1 ra2 g1 g2 :
  Unit_arch n_layers n_head d_k d_v d_model d_inner u1 ->
  Unit_arch n_layers n_head d_k d_v d_model d_inner u2 ->
  same_shape q1 q2 -> same_shape k1 k2 -> same_shape v1 v2 ->
  same_mask_shape m1 m2 ->
  sim (fun x y => same_returned_shape (fst x) (fst y))
      (TransformerUnit.forward u1 q1 k1 v1 m1 ra1 g1)
      (TransformerUnit.forward u2 q2 k2 v2 m2 ra2 g2).
Proof.
  intros (Hl1 & Hs1 & Hn1) (Hl2 & Hs2 & Hn2) Sq Sk Sv Sm.
  assert (H : simM same_returned_shape
                (TransformerUnit.forward u1 q1 k1 v1 m1 ra1)
                (TransformerUnit.forward u2 q2 k2 v2 m2 ra2)).
  { unfold TransformerUnit.forward.
    eapply simM_bind.
    { eapply simM_for_layers; try eassumption; [congruence | exact I]. }
    intros [[o1 a1]|] [[o2 a2]|] Hvars; simpl in Hvars; try contradiction.
    - destruct Hvars as [Ho _]. simpl in Ho.
      eapply simM_bind;
        [apply simM_lift; eapply sim_LayerNorm; eassumption|].
      intros y1 y2 Hy. apply simM_ret. exact Hy.
    - intros g g'. constructor. }
  exact (H g1 g2).
Qed.

Lemma outcome_is_decided_by_shapes_witness :
  Unit_arch 2 2 1 1 1 1 unit_two_layers
  /\ Unit_arch 2 2 1 1 1 1 unit_eval
  /\ same_shape q_batch2 q_batch2
  /\ same_mask_shape (Some mask_batch2) (Some mask_batch2)
  /\ sim (fun x y => same_returned_shape (fst x) (fst y))
       (TransformerUnit.forward unit_two_layers q_batch2 q_batch2 q_batch2
          (Some mask_batch2) false gen0)
       (TransformerUnit.forward unit_eval q_batch2 q_batch2 q_batch2
          (Some mask_batch2) true gen0).
Proof.
  assert (Hu : Unit_arch 2 2 1 1 1 1 unit_two_layers) by (apply Unit_init_arch).
  assert (He : Unit_arch 2 2 1 1 1 1 unit_eval).
  { split; [reflexivity|]. split; [|reflexivity].
    repeat constructor. }
  split; [exact Hu|]. split; [exact He|]. split; [reflexivity|].
  split; [reflexivity|].
  exact (outcome_is_decided_by_shapes 2 2 1 1 1 1 unit_two_layers unit_eval
           q_batch2 q_batch2 q_batch2 q_batch2 q_batch2 q_batch2
           (Some mask_batch2) (Some mask_batch2) false true gen0 gen0
           Hu He eq_refl eq_refl eq_refl eq_refl).
Defined.

(** ** Each query position attends on its own *)

Lemma mask_of_shape_fits s mask : mask_of_shape s mask -> mask_fits s mask.
Proof.
  destruct mask as [m|]; simpl; [|trivial].
  intros ->. apply broadcast_shapes_same.
Qed.

Lemma scores_entry_of self B Lq Lk Dk q k mask s b i j :
  tshape q = [B; Lq; Dk] -> tshape k = [B; Lk; Dk] ->
  mask_of_shape [B; Lq; Lk] mask ->
  ScaledDotProductAttention.scores self q k mask = Ok s ->
  b < B -> i < Lq -> j < Lk ->
  rget s [b; i; j]
  = if suppressed mask [b; i; j] then ScaledDotProductAttention.neg_1e9
    else (sum_n (fun c => rget q [b; i; c] * rget k [b; j; c]) Dk
          / ScaledDotProductAttention.temperature self)%R.
Proof.
  intros Hq Hk Hm Hs Hb Hi Hj.
  destruct (scores_entry self B Lq Lk Dk q k Hq Hk mask b i j Hm Hb Hi Hj)
    as (s' & Hs' & _ & _ & Hget).
  rewrite Hs in Hs'. inversion Hs'; subst s'. exact Hget.
Qed.

(** X17: the attention of one query position is computed from that query
    row, the keys and values of its batch entry and its own mask row only:
    two calls (dropout disabled) whose inputs agree on these give the same
    attention weights and the same output at that position, whatever the
    other query positions and batch entries contain. *)
Theorem attention_is_local_to_a_query self B Lq Lk Dk Dv
    q k v mask q' k' v' mask' g b i :
  tshape q = [B; Lq; Dk] -> tshape k = [B; Lk; Dk] -> tshape v = [B; Lk; Dv] ->
  tshape q' = [B; Lq; Dk] -> tshape k' = [B; Lk; Dk] -> tshape v' = [B; Lk; Dv] ->
  mask_of_shape [B; Lq; Lk] mask -> mask_of_shape [B; Lq; Lk] mask' ->
  SDPA_no_dropout self -> b < B -> i < Lq ->
  (forall c, c < Dk -> rget q [b; i; c] = rget q' [b; i; c]) ->
  (forall l c, l < Lk -> c < Dk -> rget k [b; l; c] = rget k' [b; l; c]) ->
  (forall l c, l < Lk -> c < Dv -> rget v [b; l; c] = rget v' [b; l; c]) ->
  (forall l, l < Lk -> suppressed mask [b; i; l] = suppressed mask' [b; i; l]) ->
  exists out attn out' attn',
    ScaledDotProductAttention.forward self q k v mask g = Ok ((out, attn), g)
    /\ ScaledDotProductAttention.forward self q' k' v' mask' g = Ok ((out', attn'), g)
    /\ (forall l, l < Lk -> rget attn [b; i; l] = rget attn' [b; i; l])
    /\ (forall j, j < Dv -> rget out [b; i; j] = rget out' [b; i; j]).
Proof.
  intros Hq Hk Hv Hq' Hk' Hv' Hm Hm' Hd Hb Hi Eq Ek Ev Em.
  destruct (SDPA_eval_entries self B Lq Lk Dk Dv q k v mask g Hq Hk Hv
              (mask_of_shape_fits _ _ Hm) Hd)
    as (s & a & o & Hs & Hsh & Hsoft & _ & Hfw & _ & _ & Hout).
  destruct (SDPA_eval_entries self B Lq Lk Dk Dv q' k' v' mask' g Hq' Hk' Hv'
              (mask_of_shape_fits _ _ Hm') Hd)
    as (s' & a' & o' & Hs' & Hsh' & Hsoft' & _ & Hfw' & _ & _ & Hout').
  exists o, a, o', a'. split; [exact Hfw|]. split; [exact Hfw'|].
  assert (Hscore : forall l, l < Lk -> rget s [b; i; l] = rget s' [b; i; l]).
  { intros l Hl.
    rewrite (scores_entry_of self B Lq Lk Dk q k mask s b i l Hq Hk Hm Hs Hb Hi Hl).
    rewrite (scores_entry_of self B Lq Lk Dk q' k' mask' s' b i l
               Hq' Hk' Hm' Hs' Hb Hi Hl).
    rewrite (Em l Hl). destruct (suppressed mask' [b; i; l]); [reflexivity|].
    f_equal. apply sum_n_ext. intros c Hc.
    rewrite (Eq c Hc), (Ek l c Hl Hc). reflexivity. }
  assert (Hattn : forall l, l < Lk -> rget a [b; i; l] = rget a' [b; i; l]).
  { intros l Hl.
    rewrite (softmax2_entry B Lq Lk s a b i l Hsh Hsoft Hb Hi Hl).
    rewrite (softmax2_entry B Lq Lk s' a' b i l Hsh' Hsoft' Hb Hi Hl).
    rewrite (Hscore l Hl). f_equal.
    apply sum_n_ext. intros l' Hl'. rewrite (Hscore l' Hl'). reflexivity. }
  split; [exact Hattn|].
  intros j Hj. rewrite (Hout b i j Hb Hi Hj), (Hout' b i j Hb Hi Hj).
  apply sum_n_ext. intros l Hl. rewrite (Hattn l Hl), (Ev l j Hl Hj). reflexivity.
Qed.

Lemma attention_is_local_to_a_query_witness :
  tshape q_batch2 = [2; 1; 1]
  /\ tshape (mkTensor [2; 1; 1] [0%R; 7%R]) = [2; 1; 1]
  /\ mask_of_shape [2; 1; 1] None /\ SDPA_no_dropout sdpa_one
  /\ exists out attn out' attn',
       ScaledDotProductAttention.forward sdpa_one q_batch2 q_batch2 q_batch2
         None gen0 = Ok ((out, attn), gen0)
       /\ ScaledDotProductAttention.forward sdpa_one
            (mkTensor [2; 1; 1] [0%R; 7%R]) (mkTensor [2; 1; 1] [0%R; 7%R])
            (mkTensor [2; 1; 1] [0%R; 7%R]) None gen0 = Ok ((out', attn'), gen0)
       /\ (forall l, l < 1 -> rget attn [0; 0; l] = rget attn' [0; 0; l])
       /\ (forall j, j < 1 -> rget out [0; 0; j] = rget out' [0; 0; j]).
Proof.
  split; [reflexivity|]. split; [reflexivity|]. split; [exact I|].
  split; [reflexivity|].
  apply (attention_is_local_to_a_query sdpa_one 2 1 1 1 1
           q_batch2 q_batch2 q_batch2 None
           (mkTensor [2; 1; 1] [0%R; 7%R]) (mkTensor [2; 1; 1] [0%R; 7%R])
           (mkTensor [2; 1; 1] [0%R; 7%R]) None gen0 0 0);
    try reflexivity; try exact I; try lia.
  - intros c Hc. assert (c = 0) by lia. subst. reflexivity.
  - intros l c Hl Hc. assert (l = 0) by lia. assert (c = 0) by lia. subst. reflexivity.
  - intros l c Hl Hc. assert (l = 0) by lia. assert (c = 0) by lia. subst. reflexivity.
Defined.

(** ** The residual path *)

Lemma sum_n_zero f n : (forall l, l < n -> f l = 0%R) -> sum_n f n = 0%R.
Proof.
  intros H. rewrite (sum_n_ext f (fun _ => 0%R) n H), sum_n_const. ring.
Qed.

(** Dropout maps a tensor of zeros to a tensor of zeros, in any mode. *)
Lemma Dropout_zero d x y g g' :
  wf x -> (forall idx, in_bounds (tshape x) idx -> rget x idx = 0%R) ->
  Dropout.forward d x g = Ok (y, g') ->
  tshape y = tshape x
  /\ forall idx, in_bounds (tshape x) idx -> rget y idx = 0%R.
Proof.
  intros Hwf Hx. unfold Dropout.forward.
  destruct (Qeq_bool (Dropout.p d) 0 || negb (Dropout.training d)
            || (numel (tshape x) =? 0)).
  - intros E; inversion E; subst. split; [reflexivity | exact Hx].
  - destruct (Qeq_bool (Dropout.p d) 1); intros E; inversion E; subst; clear E;
      (split; [reflexivity|]); intros idx Hin; unfold rget, get; simpl.
    + replace 0%R with ((fun v => v * 0)%R 0%R) at 1 by ring.
      rewrite (map_nth (fun v => (v * 0)%R) (tdata x) 0%R). ring.
    + set (F := fun vk : R * bool =>
                  if snd vk then (fst vk * (1 / (1 - Q2R (Dropout.p d))))%R
                  else (fst vk * 0)%R).
      replace 0%R with (F (0%R, true)) at 1 by (unfold F; simpl; ring).
      rewrite (map_nth F).
      rewrite combine_nth
        by (rewrite length_map, length_seq; exact Hwf).
      specialize (Hx idx Hin). unfold rget, get in Hx.
      unfold F; simpl. rewrite Hx.
      destruct (nth _ _ true); ring.
Qed.

(** Normalising [x] plus a tensor of zeros is normalising [x]. *)
Lemma LayerNorm_plus_zero d m x f z a b :
  LayerNorm_arch d m -> tshape x = [a; b; d] -> tshape f = [a; b; d] ->
  (forall idx, in_bounds [a; b; d] idx -> rget f idx = 0%R) ->
  add f x = Ok z ->
  LayerNorm.forward m z = LayerNorm.forward m x.
Proof.
  intros Hm Hx Hf Hzero Hz.
  assert (Sz : tshape z = [a; b; d]).
  { rewrite (add_eq f x [a; b; d] Hf Hx) in Hz. inversion Hz; reflexivity. }
  assert (Hzx : forall idx, in_bounds [a; b; d] idx -> rget z idx = rget x idx).
  { intros idx Hin. rewrite (add_entry f x z [a; b; d] idx Hf Hx Hz Hin).
    rewrite (Hzero idx Hin). ring. }
  rewrite (LayerNorm_eq d m z a b Hm Sz), (LayerNorm_eq d m x a b Hm Hx).
  f_equal. apply tabulate_ext. intros idx Hin.
  apply in_bounds3 in Hin as (p & q & j & -> & Hp & Hq & Hj).
  cbv zeta. simpl removelast. simpl List.last. simpl app.
  assert (Hrow : forall c, c < d -> rget z [p; q; c] = rget x [p; q; c])
    by (intros c Hc; apply Hzx; simpl; tauto).
  assert (Hsum : sum_n (fun c => rget z [p; q; c]) d
                 = sum_n (fun c => rget x [p; q; c]) d)
    by (apply sum_n_ext; exact Hrow).
  rewrite Hsum, (Hrow j Hj). f_equal. f_equal. f_equal. f_equal. f_equal. f_equal.
  apply sum_n_ext. intros c Hc. rewrite (Hrow c Hc). reflexivity.
Qed.


Lemma fill_zero s : zero_tensor (fill s (fun _ => 0%R)).
Proof.
  intros idx. unfold rget, get, fill. simpl tdata. simpl tshape.
  exact (map_nth (fun _ : nat => 0%R) (seq 0 (numel s)) 0 (ravel s idx)).
Qed.



(** X19: when the output projection [fc] of [MultiHeadAttention] is zero
    (weight and bias), the module returns the layer normalisation of the
    query: the residual connection carries the query unchanged, whatever
    key, value, mask and training mode. *)
Theorem zero_projection_normalises_query n_head d_model d_k d_v self
    q k v mask B Lq Lk g :
  MHA_arch n_head d_model d_k d_v self ->
  tshape q = [B; Lq; d_model] -> tshape k = [B; Lk; d_model] ->
  tshape v = [B; Lk; d_model] ->
  1 <= B -> 1 <= Lq -> 1 <= Lk -> 1 <= d_k -> 1 <= d_v ->
  mask_fits [n_head * B; Lq; Lk] mask ->
  zero_tensor (Linear.weight (MultiHeadAttention.fc self)) ->
  zero_tensor (Linear.bias (MultiHeadAttention.fc self)) ->
  exists out attn g',
    MultiHeadAttention.forward self q k v mask g = Ok ((out, attn), g')
    /\ LayerNorm.forward (MultiHeadAttention.layer_norm self) q = Ok out.
Proof.
  intros Harch Hq Hk Hv HB HLq HLk Hk1 Hv1 Hm Hw0 Hb0.
  destruct (MHA_forward_unfold _ _ _ _ self q k v B Lq Lk
              Harch Hq Hk Hv HLq HLk Hk1 Hv1)
    as (qh & kh & vh & Sq & Sk & Sv & Hfw).
  rewrite Hfw. clear Hfw.
  destruct Harch as (Hn & Hdk & Hdv & Hwq & Hwk & Hwv & Hln & Hfc).
  destruct (SDPA_forward_shape (MultiHeadAttention.attention self)
              _ _ _ _ _ qh kh vh mask g Sq Sk Sv Hm)
    as (o & attn & g1 & Es & So & Sa).
  unfold bind at 1. rewrite Es. cbv beta iota zeta.
  destruct (merge_heads_ok R 0%R n_head B Lq d_v o So HB HLq)
    as (mg & Em & _ & Sm & _).
  rewrite Em, bind_lift.
  rewrite (Linear_eq _ _ _ mg B Lq Hfc Sm), bind_lift.
  match goal with
  | |- context [Dropout.forward _ ?t] => set (f := t)
  end.
  assert (Hf : forall idx, in_bounds (tshape f) idx -> rget f idx = 0%R).
  { intros idx Hin. subst f. simpl tshape in Hin.
    unfold rget at 1. rewrite get_tabulate by exact Hin. cbv zeta.
    rewrite Hb0, sum_n_zero; [ring|].
    intros c Hc. rewrite Hw0. ring. }
  destruct (Dropout_ok (MultiHeadAttention.dropout self) f g1)
    as (dt & g2 & Ed & Sd).
  destruct (Dropout_zero _ f dt g1 g2 (tabulate_wf R _ _) Hf Ed) as [_ Hdt].
  unfold bind at 1. rewrite Ed.
  destruct (add_ok dt q [B; Lq; d_model] Sd Hq) as (z & Ez & Sz).
  rewrite Ez. simpl rbind.
  rewrite (LayerNorm_plus_zero d_model _ q dt z B Lq Hln Hq Sd Hdt Ez).
  destruct (LayerNorm_ok _ _ q B Lq Hln Hq) as (y & Ey & Sy).
  rewrite Ey, bind_lift. exists y, attn, g2. split; reflexivity.
Qed.

Lemma zero_projection_normalises_query_witness :
  MHA_arch 2 1 1 1 mha_zero /\ tshape q_batch2 = [2; 1; 1]
  /\ mask_fits [2 * 2; 1; 1] None
  /\ zero_tensor (Linear.weight (MultiHeadAttention.fc mha_zero))
  /\ zero_tensor (Linear.bias (MultiHeadAttention.fc mha_zero))
  /\ exists out attn g',
       MultiHeadAttention.forward mha_zero q_batch2 q_batch2 q_batch2 None gen0
       = Ok ((out, attn), g')
       /\ LayerNorm.forward (MultiHeadAttention.layer_norm mha_zero) q_batch2 = Ok out.
Proof.
  assert (Ha : MHA_arch 2 1 1 1 mha_zero) by (apply MHA_init_arch).
  assert (Hw : zero_tensor (Linear.weight (MultiHeadAttention.fc mha_zero)))
    by (apply fill_zero).
  assert (Hb : zero_tensor (Linear.bias (MultiHeadAttention.fc mha_zero)))
    by (apply fill_zero).
  split; [exact Ha|]. split; [reflexivity|]. split; [exact I|].
  split; [exact Hw|]. split; [exact Hb|].
  exact (zero_projection_normalises_query 2 1 1 1 mha_zero q_batch2 q_batch2
           q_batch2 None 2 1 1 gen0 Ha eq_refl eq_refl eq_refl
           (le_S 1 1 (le_n 1)) (le_n 1) (le_n 1) (le_n 1) (le_n 1) I Hw Hb).
Defined.
